(** * evaluate.py: the evaluation harness of tensorflow-deeplab-resnet

    A shallow embedding of [src/evaluate.py]: the checkpoint loader with its
    load-step parse, the ignore-label weights, the streaming mean-IoU
    accumulator that [main] drives, the creation of the output directory and
    the evaluation loop with its optional mask files and periodic report.

    Python values are modelled as follows: [int] as [Z], [str] as [string]
    (ASCII file names), label maps flattened by [tf.reshape(_, [-1,])] as
    [list Z], the confusion matrix as [list (list Z)] indexed
    [ground truth][prediction], the file system as a [gset] of directories
    and a [gmap] from path to file content, exceptions as a sum type threaded
    through a state-and-error monad.  Strings are ASCII; what the
    environment decides ([saver.restore], [sess.run], [im.save],
    [os.makedirs]) is read from a record of oracles.  The float32 division of the metric is
    idealised as exact arithmetic on [Q]; rounding is not modelled. *)

From Stdlib Require Import ZArith QArith String Ascii List Lia DecimalString
  DecimalNat.
From stdpp Require Import gmap strings list fin_maps.

Set Warnings "-clear-no-such-hyp".

Open Scope string_scope.
Open Scope list_scope.
Open Scope Z_scope.

(** ** Python built-ins used by [main] *)

Module Py.

(** Exceptions that can leave [main]. *)
Inductive Exn : Type :=
| IndexError                       (* list index out of range *)
| ValueError (literal : string)    (* invalid literal for int() *)
| RestoreError (path : string)     (* saver.restore failed *)
| RunError (call : nat)            (* the call-th sess.run failed *)
| IOError (path : string)          (* im.save failed *)
| OSError (path : string).         (* os.makedirs failed *)

(** [str.split(sep)] for a one-character separator: the pieces between
    the separators, in order; the empty string gives one empty piece. *)
Fixpoint split (sep : ascii) (s : string) : list string :=
  match s with
  | EmptyString => [EmptyString]
  | String c s' =>
      if Ascii.eqb c sep then EmptyString :: split sep s'
      else match split sep s' with
           | [] => [String c EmptyString]
           | p :: ps => String c p :: ps
           end
  end.

(** [os.path.basename] on POSIX: what follows the last slash. *)
Definition basename (p : string) : string :=
  List.last (split "/" p) EmptyString.

(** [l[i]]: raises [IndexError] out of range (non-negative [i]). *)
Definition index {A} (l : list A) (i : nat) : Exn + A :=
  match l !! i with
  | Some x => inr x
  | None => inl IndexError
  end.

(** Characters that [int()] strips from an ASCII string: tab, line feed,
    vertical tab, form feed, carriage return and space. *)
Definition is_space (c : ascii) : bool :=
  let n := nat_of_ascii c in
  ((9 <=? n)%nat && (n <=? 13)%nat) || (n =? 32)%nat.

Definition digit_val (c : ascii) : option Z :=
  let n := Z.of_nat (nat_of_ascii c) in
  if (48 <=? n) && (n <=? 57) then Some (n - 48) else None.

Fixpoint lstrip (cs : list ascii) : list ascii :=
  match cs with
  | c :: r => if is_space c then lstrip r else cs
  | [] => []
  end.

Definition strip (cs : list ascii) : list ascii :=
  rev (lstrip (rev (lstrip cs))).

(** Decimal digits, with single underscores allowed between digits.
    [prev] tells whether the previous character was a digit. *)
Fixpoint digits (acc : Z) (prev : bool) (cs : list ascii) : option Z :=
  match cs with
  | [] => if prev then Some acc else None
  | c :: r =>
      match digit_val c with
      | Some d => digits (10 * acc + d) true r
      | None => if Ascii.eqb c "_" && prev then digits acc false r else None
      end
  end.

(** [int(s)] in base ten, as Python 3.6 and later read an ASCII string:
    surrounding white space, an optional sign, then digits.  Strings with
    other than ASCII characters are outside this model (see [is_ascii]). *)
Definition int_of_chars (cs : list ascii) : option Z :=
  match strip cs with
  | "+"%char :: r => digits 0 false r
  | "-"%char :: r => Z.opp <$> digits 0 false r
  | r => digits 0 false r
  end.

Definition int (s : string) : Exn + Z :=
  match int_of_chars (list_ascii_of_string s) with
  | Some z => inr z
  | None => inl (ValueError s)
  end.

(** [str(n)] for a loop index. *)
Definition str (n : nat) : string :=
  NilZero.string_of_uint (Nat.to_uint n).

End Py.

(** ** The streaming mean-IoU accumulator

    [tf.contrib.metrics.streaming_mean_iou] is TensorFlow library code; the
    repository only calls it (line 103).  Its two operations, [update_op]
    and the [mIoU] value tensor, are therefore modelled from the
    specification (section 4.4). *)

Module Metric.

Definition Zsum (l : list Z) : Z := foldr Z.add 0 l.

Definition Qsum (l : list Q) : Q := foldr Qplus (0%Q) l.

(** Modelled from the spec: the initial state of the accumulator of
    [streaming_mean_iou], "confusion matrix all zero". *)
Definition zeros (n : nat) : list (list Z) := replicate n (replicate n 0).

(** Modelled from the spec: one pixel of the [update] transition of
    [streaming_mean_iou], "increments confusion_matrix[gt][pred] for every
    masked-in pixel pair".  The mask reaches the library as the 0/1 int32
    [weights] of line 102, so the increment is the pixel's weight.  A pair
    that does not index the matrix leaves it as it is. *)
Definition add_at (cm : list (list Z)) (gt pred w : Z) : list (list Z) :=
  if (0 <=? gt) && (0 <=? pred)
  then alter (alter (Z.add w) (Z.to_nat pred)) (Z.to_nat gt) cm
  else cm.

(** Modelled from the spec: the [update] transition of
    [streaming_mean_iou] over "a predicted label map and ground-truth label
    map flattened to parallel sequences, and a per-pixel boolean mask". *)
Fixpoint update (cm : list (list Z)) (predictions labels weights : list Z)
  : list (list Z) :=
  match predictions, labels, weights with
  | p :: ps, g :: gs, w :: ws => update (add_at cm g p w) ps gs ws
  | _, _, _ => cm
  end.

Definition entry (cm : list (list Z)) (i j : nat) : Z := nth j (nth i cm []) 0.

(** Modelled from the spec: the per-class quantities of the [value] query
    of [streaming_mean_iou], "intersection = confusion[c][c], union =
    row_sum(c) + col_sum(c) - confusion[c][c]". *)
Definition intersection (cm : list (list Z)) (c : nat) : Z := entry cm c c.

Definition row_sum (cm : list (list Z)) (c : nat) : Z := Zsum (nth c cm []).

Definition col_sum (cm : list (list Z)) (c : nat) : Z :=
  Zsum (map (fun row => nth c row 0) cm).

Definition union (cm : list (list Z)) (c : nat) : Z :=
  row_sum cm c + col_sum cm c - intersection cm c.

Definition iou (cm : list (list Z)) (c : nat) : Q :=
  (inject_Z (intersection cm c) / inject_Z (union cm c))%Q.

Definition valid_classes (n : nat) (cm : list (list Z)) : list nat :=
  List.filter (fun c => negb (union cm c =? 0)) (seq 0 n).

(** Modelled from the spec: the [value] query of [streaming_mean_iou],
    "mean IoU = average of intersection/union over classes with nonzero
    union".  The spec leaves the case of no such class open; the model
    answers 0 there. *)
Definition mean_iou (n : nat) (cm : list (list Z)) : Q :=
  match valid_classes n cm with
  | [] => 0%Q
  | v => (Qsum (map (iou cm) v) / inject_Z (Z.of_nat (length v)))%Q
  end.

(** An [n] x [n] matrix. *)
Definition square (n : nat) (cm : list (list Z)) : Prop :=
  length cm = n /\ Forall (fun row => length row = n) cm.

End Metric.

(** ** The program state and its environment *)

(** The arguments of [get_arguments] (lines 40-51). *)
Record Args : Type := mkArgs {
  data_dir : string;
  data_list : string;
  ignore_label : Z;
  num_classes : Z;
  num_steps : Z;
  restore_from : string
}.

Definition DATA_DIRECTORY : string := "/data/cityscapes_dataset/cityscape".
Definition DATA_LIST_PATH : string := "/data/cityscapes_dataset/cityscape/list/eval_list.txt".
Definition IGNORE_LABEL : Z := 255.
Definition NUM_CLASSES : Z := 19.
Definition NUM_STEPS : Z := 500.
Definition RESTORE_FROM : string := "./deeplab_resnet.ckpt".
Definition SNAPSHOT_DIR : string := "./snapshots".
Definition SAVE_DIR : string := "./output/".
Definition IS_SAVE : bool := false.

(** The arguments when the command line gives none. *)
Definition default_args : Args :=
  mkArgs DATA_DIRECTORY DATA_LIST_PATH IGNORE_LABEL NUM_CLASSES NUM_STEPS RESTORE_FROM.

(** What [tf.train.get_checkpoint_state] returns when it finds a state file. *)
Record CheckpointState : Type := mkCkpt {
  model_checkpoint_path : string
}.

(** The values of the model's variables. *)
Inductive Params : Type :=
| Uninitialized
| Initialized                      (* after [sess.run(init)] *)
| Restored (ckpt_path : string).   (* after [saver.restore] *)

(** A line written by [print]; the report of line 143 keeps its two
    arguments instead of their formatted text. *)
Inductive Line : Type :=
| LText (s : string)
| LStep (step : nat) (mIoU : Q).

(** The image saved at line 140: [decode_labels(preds, num_classes)[0]]. *)
Record Mask : Type := mkMask {
  mask_preds : list Z;
  mask_num_classes : Z
}.

(** Calls into the collaborators, in the order they happen. *)
Inductive Event : Type :=
| EvRestore (path : string)
| EvMakedirs (path : string)
| EvRun (call : nat) (p : Params)   (* one [sess.run([pred, update_op])] *)
| EvSave (path : string).

Record State : Type := mkState {
  stdout : list Line;
  params : Params;
  total_cm : list (list Z);     (* the accumulator's local variable *)
  cursor : nat;                 (* image/label pairs dequeued so far *)
  dirs : gset string;
  files : gmap string Mask;
  trace : list Event
}.

(** Everything [main] reads from outside.  [is_save] stands for the module
    constant [IS_SAVE]; [fetch p k] is what the [k]-th
    [sess.run([pred, update_op])] computes under parameters [p]: the
    flattened prediction and ground truth of the [k]-th pair of the reader,
    or [None] when the run fails.  [restore_ok], [save_ok] and [makedirs_ok]
    tell whether the environment lets [saver.restore], [im.save] and
    [os.makedirs] succeed on a path. *)
Record World : Type := mkWorld {
  args : Args;
  is_save : bool;
  get_checkpoint_state : string -> option CheckpointState;
  restore_ok : string -> bool;
  fetch : Params -> nat -> option (list Z * list Z);
  save_ok : string -> bool;
  makedirs_ok : string -> bool;
  dirs0 : gset string;
  files0 : gmap string Mask
}.

Definition initial_state (w : World) : State :=
  mkState [] Uninitialized [] 0 (dirs0 w) (files0 w) [].

(** ** A state-and-exception monad for [main] *)

Definition M (A : Type) : Type := State -> (Py.Exn + A) * State.

#[global] Instance M_ret : MRet M := fun A a s => (inr a, s).

#[global] Instance M_bind : MBind M := fun A B f m s =>
  match m s with
  | (inl e, s') => (inl e, s')
  | (inr a, s') => f a s'
  end.

Definition raise {A} (e : Py.Exn) : M A := fun s => (inl e, s).

Definition lift {A} (r : Py.Exn + A) : M A := fun s => (r, s).

Definition gets {A} (f : State -> A) : M A := fun s => (inr (f s), s).

Definition modify (f : State -> State) : M unit := fun s => (inr tt, f s).

Definition print (l : Line) : M unit :=
  modify (fun s => mkState (stdout s ++ [l]) (params s) (total_cm s) (cursor s)
                           (dirs s) (files s) (trace s)).

Ltac unfold_M :=
  unfold mbind, M_bind, mret, M_ret, gets, modify, print, raise, lift, id.

(** [for x in l: body(x)] *)
Fixpoint for_each (l : list nat) (body : nat -> M unit) : M unit :=
  match l with
  | [] => mret tt
  | x :: r => body x ;; for_each r body
  end.

(** [range(n)]: empty when [n] is not positive. *)
Definition range (n : Z) : list nat := seq 0 (Z.to_nat n).

(** ** [main] *)

(** Line 102: [tf.cast(tf.less_equal(gt, num_classes - 1), tf.int32)]. *)
Definition weights (gt : list Z) (num_classes : Z) : list Z :=
  map (fun g => if g <=? num_classes - 1 then 1 else 0) gt.

(** Line 121: [int(os.path.basename(path).split('-')[1])]. *)
Definition parse_load_step (path : string) : Py.Exn + Z :=
  match Py.index (Py.split "-" (Py.basename path)) 1 with
  | inl e => inl e
  | inr field => Py.int field
  end.

(** The condition of line 119, [ckpt and ckpt.model_checkpoint_path]:
    the path to load when it holds. *)
Definition usable (ckpt : option CheckpointState) : option string :=
  match ckpt with
  | Some c => if String.eqb (model_checkpoint_path c) "" then None
              else Some (model_checkpoint_path c)
  | None => None
  end.

(** [os.path.exists]: a directory of that name, or a file; a name that ends
    in a slash can only be a directory.  Paths are compared as written. *)
Definition os_path_exists (s : State) (p : string) : bool :=
  bool_decide (p ∈ dirs s)
  || (bool_decide (p ∈ dom (files s))
      && negb (match rev (list_ascii_of_string p) with
               | "/"%char :: _ => true
               | _ => false
               end)).

(** A directory path without its trailing slash, the name under which
    [os.makedirs] creates it. *)
Definition dir_name (p : string) : string :=
  match rev (list_ascii_of_string p) with
  | "/"%char :: r => string_of_list_ascii (rev r)
  | _ => p
  end.

(** [os.makedirs(p)] goes through: the environment allows it and no regular
    file stands where the directory should be. *)
Definition makedirs_works (w : World) (s : State) (p : string) : bool :=
  makedirs_ok w p
  && negb (bool_decide (p ∈ dom (files s)))
  && negb (bool_decide (dir_name p ∈ dom (files s))).

Section Main.

Variable w : World.

Definition classes : nat := Z.to_nat (num_classes (args w)).

(** Lines 111-112: the global and the local variables get their initial
    values; the accumulator's matrix is a local variable. *)
Definition init_variables : M unit :=
  modify (fun s => mkState (stdout s) Initialized (Metric.zeros classes)
                           (cursor s) (dirs s) (files s) (trace s)).

(** [load] (lines 54-63). *)
Definition load (ckpt_path : string) : M unit :=
  if restore_ok w ckpt_path then
    modify (fun s => mkState (stdout s) (Restored ckpt_path) (total_cm s)
                             (cursor s) (dirs s) (files s)
                             (trace s ++ [EvRestore ckpt_path])) ;;
    print (LText ("Restored model parameters from " +:+ ckpt_path))
  else raise (Py.RestoreError ckpt_path).

(** Lines 117-125; the result is [load_step]. *)
Definition load_checkpoint : M Z :=
  let ckpt := get_checkpoint_state w SNAPSHOT_DIR in
  match usable ckpt with
  | Some path =>
      load_step ← lift (parse_load_step path);
      load path ;;
      mret load_step
  | None =>
      print (LText "No checkpoint file found.") ;;
      mret 0
  end.

(** [os.makedirs(p)]: creates the directory, or raises when the
    environment refuses or when a regular file has that name. *)
Definition makedirs (p : string) : M unit :=
  fun s =>
    if makedirs_works w s p then
      (inr tt, mkState (stdout s) (params s) (total_cm s) (cursor s)
                       ({[p]} ∪ dirs s) (files s)
                       (trace s ++ [EvMakedirs p]))
    else (inl (Py.OSError p), s).

(** Lines 130-131. *)
Definition ensure_save_dir : M unit :=
  exists_ ← gets (fun s => os_path_exists s SAVE_DIR);
  if negb exists_ then makedirs SAVE_DIR else mret tt.

(** Line 134, [sess.run([pred, update_op])]: dequeue one pair, predict,
    and feed the accumulator with the weights of line 102. *)
Definition run_pred_update : M (list Z) :=
  s ← gets id;
  match fetch w (params s) (cursor s) with
  | None => raise (Py.RunError (cursor s))
  | Some (pred_flatten, gt) =>
      modify (fun s => mkState (stdout s) (params s)
                (Metric.update (total_cm s) pred_flatten gt
                               (weights gt (num_classes (args w))))
                (S (cursor s)) (dirs s) (files s)
                (trace s ++ [EvRun (cursor s) (params s)])) ;;
      mret pred_flatten
  end.

(** Line 143, [mIoU.eval(session=sess)]: reads the accumulator. *)
Definition eval_mIoU : M Q :=
  gets (fun s => Metric.mean_iou classes (total_cm s)).

(** Line 140, [im.save(path)]. *)
Definition save (path : string) (im : Mask) : M unit :=
  if save_ok w path then
    modify (fun s => mkState (stdout s) (params s) (total_cm s) (cursor s)
                             (dirs s) (<[path := im]> (files s))
                             (trace s ++ [EvSave path]))
  else raise (Py.IOError path).

Definition mask_path (step : nat) : string :=
  SAVE_DIR +:+ ("mask" +:+ Py.str step +:+ ".png").

(** Lines 134-143: the body of the loop. *)
Definition body (step : nat) : M unit :=
  preds ← run_pred_update;
  (if is_save w then
     let msk := mkMask preds (num_classes (args w)) in
     let filename := "mask" +:+ Py.str step +:+ ".png" in
     save (SAVE_DIR +:+ filename) msk
   else mret tt) ;;
  if (step mod 10 =? 0)%nat then
    v ← eval_mIoU;
    print (LStep step v)
  else mret tt.

(** Lines 133-143. *)
Definition eval_loop : M unit :=
  for_each (range (num_steps (args w))) body.

(** Lines 65-146.  Python's [main] returns nothing; the model returns the
    local [load_step] so that it can be observed.  The queue threads of
    lines 128 and 145-146 are not modelled. *)
Definition main : M Z :=
  init_variables ;;
  load_step ← load_checkpoint;
  ensure_save_dir ;;
  eval_loop ;;
  mret load_step.

End Main.

(** One run of the script in the environment [w]. *)
Definition run (w : World) : (Py.Exn + Z) * State := main w (initial_state w).

(** ** Observations on a run *)

(** The [sess.run] calls of a trace, by the reader position they consumed. *)
Definition runs (tr : list Event) : list nat :=
  omap (fun e => match e with EvRun k _ => Some k | _ => None end) tr.

(** The parameters each [sess.run] of a trace computed with. *)
Definition run_params (tr : list Event) : list Params :=
  omap (fun e => match e with EvRun _ p => Some p | _ => None end) tr.

(** The paths written by [im.save], in order. *)
Definition saves (tr : list Event) : list string :=
  omap (fun e => match e with EvSave p => Some p | _ => None end) tr.

(** A path of the form [SAVE_DIR + name]. *)
Definition in_save_dir (p : string) : bool := String.prefix SAVE_DIR p.

(** The (prediction, ground truth) pixel pairs that are not ignored. *)
Definition counted (n : Z) (pixels : list (Z * Z)) : list (Z * Z) :=
  List.filter (fun pg => snd pg <? n) pixels.

(** Iteration [k] of a loop entered in state [s] can complete: the reader
    has a [k]-th further pair and, when masks are saved, the write works. *)
Definition step_ok (w : World) (s : State) (k : nat) : Prop :=
  is_Some (fetch w (params s) (cursor s + k)%nat) /\
  (is_save w = true -> save_ok w (mask_path k) = true).

(** The state after the [sess.run] of line 134 on the pair [(pred, gt)]. *)
Definition after_run (w : World) (s : State) (pred gt : list Z) : State :=
  mkState (stdout s) (params s)
    (Metric.update (total_cm s) pred gt (weights gt (num_classes (args w))))
    (S (cursor s)) (dirs s) (files s)
    (trace s ++ [EvRun (cursor s) (params s)]).

(** The state after one complete iteration on the pair [(pred, gt)]. *)
Definition after_body (w : World) (step : nat) (s : State) (pred gt : list Z)
  : State :=
  let cm := Metric.update (total_cm s) pred gt
              (weights gt (num_classes (args w))) in
  mkState
    (stdout s ++ (if (step mod 10 =? 0)%nat
                  then [LStep step (Metric.mean_iou (classes w) cm)] else []))
    (params s) cm (S (cursor s)) (dirs s)
    (if is_save w
     then <[mask_path step := mkMask pred (num_classes (args w))]> (files s)
     else files s)
    (trace s ++ EvRun (cursor s) (params s)
       :: (if is_save w then [EvSave (mask_path step)] else [])).

(** The confusion matrix after feeding [n] pairs of the reader, from
    position [c] on, into [cm]. *)
Fixpoint accumulate (w : World) (p : Params) (cm : list (list Z)) (c n : nat)
  : list (list Z) :=
  match n with
  | O => cm
  | S n' =>
      match fetch w p c with
      | Some (pred, gt) =>
          accumulate w p
            (Metric.update cm pred gt (weights gt (num_classes (args w))))
            (S c) n'
      | None => cm
      end
  end.

(** What a loop over the steps [l] that ran to its end has done. *)
Definition loop_post (w : World) (l : list nat) (s s' : State) : Prop :=
  cursor s' = (cursor s + length l)%nat /\
  params s' = params s /\
  dirs s' = dirs s /\
  total_cm s' = accumulate w (params s) (total_cm s) (cursor s) (length l) /\
  runs (trace s') = (runs (trace s) ++ seq (cursor s) (length l))%list /\
  saves (trace s') =
    (saves (trace s) ++ (if is_save w then map mask_path l else []))%list /\
  dom (files s') =
    dom (files s) ∪ (if is_save w then list_to_set (map mask_path l) else ∅).

(** The events a loop running under the parameters [p] may add. *)
Definition loop_event (p : Params) (e : Event) : Prop :=
  match e with
  | EvRun _ q => q = p
  | EvSave _ => True
  | _ => False
  end.

(** Lines 130-131 go through in the environment [w]: the output directory
    is there, or [os.makedirs] can create it. *)
Definition save_dir_ready (w : World) : bool :=
  bool_decide (SAVE_DIR ∈ dirs0 w)
  || makedirs_works w (initial_state w) SAVE_DIR.

(** Only ASCII characters: the strings on which [Py.int] is [int()]. *)
Definition is_ascii (s : string) : bool :=
  forallb (fun c => (nat_of_ascii c <? 128)%nat) (list_ascii_of_string s).

(** The checkpoint phase of lines 117-125 goes through: there is nothing
    to load, or the load step parses and the restore succeeds. *)
Definition checkpoint_loads (w : World) : bool :=
  match usable (get_checkpoint_state w SNAPSHOT_DIR) with
  | None => true
  | Some path =>
      match parse_load_step path with
      | inr _ => restore_ok w path
      | inl _ => false
      end
  end.

(** A file name ends in a dash followed by an integer literal. *)
Definition has_step_suffix (name : string) : bool :=
  match Py.split "-" name with
  | [] | [_] => false
  | fields =>
      match Py.int (List.last fields "") with
      | inr _ => true
      | inl _ => false
      end
  end.

(** The same environment with another value of [--restore-from]. *)
Definition with_restore_from (r : string) (w : World) : World :=
  mkWorld
    (mkArgs (data_dir (args w)) (data_list (args w)) (ignore_label (args w))
            (num_classes (args w)) (num_steps (args w)) r)
    (is_save w) (get_checkpoint_state w) (restore_ok w) (fetch w) (save_ok w)
    (makedirs_ok w) (dirs0 w) (files0 w).

(** ** Further observations *)

(** A decimal digit, the only characters [str] writes. *)
Definition is_digit (c : ascii) : Prop :=
  exists d, Py.digit_val c = Some d.

(** The same environment with [ck] as the answer of
    [tf.train.get_checkpoint_state]. *)
Definition with_checkpoint (ck : option CheckpointState) (w : World) : World :=
  mkWorld (args w) (is_save w) (fun _ => ck) (restore_ok w) (fetch w)
    (save_ok w) (makedirs_ok w) (dirs0 w) (files0 w).

(** The line the checkpoint phase prints when it goes through. *)
Definition loader_line (w : World) : Line :=
  match usable (get_checkpoint_state w SNAPSHOT_DIR) with
  | Some path => LText ("Restored model parameters from " +:+ path)
  | None => LText "No checkpoint file found."
  end.

(** The reports of [n] steps under the parameters [p], with the reader at
    position [c] and the accumulator at [cm] when the loop starts: one for
    each step that is a multiple of ten, with the metric of the matrix fed
    up to and including that step. *)
Definition reports (w : World) (p : Params) (cm : list (list Z)) (c n : nat)
  : list Line :=
  map (fun step =>
         LStep step (Metric.mean_iou (classes w) (accumulate w p cm c (S step))))
      (List.filter (fun step => (step mod 10 =? 0)%nat) (seq 0 n)).

(** ** Concrete inputs used by the examples below *)

(** The 2x2 scenario of the specification, flattened row by row. *)
Definition scenario_pred : list Z := [0; 1; 2; 0].
Definition scenario_gt : list Z := [0; 1; 2; 1].

Definition scenario_cm : list (list Z) :=
  Metric.update (Metric.zeros 3) scenario_pred scenario_gt (weights scenario_gt 3).

(** The claimed mean of the scenario lies within half a unit of the fourth
    decimal of [x]. *)
Definition rounds_to (v x : Q) : Prop :=
  (x - (5 # 100000) <= v /\ v < x + (5 # 100000))%Q.

(** An environment: [ckpt] is the checkpoint path recorded in
    [SNAPSHOT_DIR] (if any), every restore, save and [os.makedirs] is
    allowed, the reader
    holds [samples] and fails when they are used up, the file system starts
    with the directories [ds] and no file. *)
Definition world_of (a : Args) (saving : bool) (ckpt : option string)
    (samples : list (list Z * list Z)) (ds : gset string) : World :=
  mkWorld a saving
    (fun d => if String.eqb d SNAPSHOT_DIR then mkCkpt <$> ckpt else None)
    (fun _ => true)
    (fun _ k => samples !! k)
    (fun _ => true)
    (fun _ => true)
    ds ∅.

Definition args_of (classes_ steps : Z) (restore : string) : Args :=
  mkArgs DATA_DIRECTORY DATA_LIST_PATH IGNORE_LABEL classes_ steps restore.

Definition scenario_sample : list Z * list Z := (scenario_pred, scenario_gt).

(** A checkpoint whose name has two dashes around an integer and no integer
    at its end. *)
Definition odd_name_world : World :=
  world_of (args_of 19 0 RESTORE_FROM) false
    (Some "./snapshots/model-5-final") [] ∅.

(** A checkpoint whose name has no dash, an absent output directory. *)
Definition no_dash_world : World :=
  world_of (args_of 3 1 RESTORE_FROM) false
    (Some "./snapshots/model.ckpt") [scenario_sample] ∅.

(** Two steps on the scenario's pair, masks saved or not, no checkpoint. *)
Definition two_step_world (saving : bool) : World :=
  world_of (args_of 3 2 RESTORE_FROM) saving None
    [scenario_sample; scenario_sample] ∅.

(** Two steps asked of a reader that holds a single pair. *)
Definition short_reader_world : World :=
  world_of (args_of 3 2 RESTORE_FROM) false None [scenario_sample] ∅.

(** A checkpoint saved at step 1000 and two pairs to evaluate. *)
Definition restored_world (saving : bool) : World :=
  world_of (args_of 3 2 RESTORE_FROM) saving
    (Some "./snapshots/model.ckpt-1000")
    [scenario_sample; scenario_sample] ∅.

(** A checkpoint that parses and whose restore fails. *)
Definition broken_restore_world : World :=
  mkWorld (args_of 3 2 RESTORE_FROM) false
    (fun _ => Some (mkCkpt "./snapshots/model.ckpt-1000"))
    (fun _ => false)
    (fun _ k => [scenario_sample; scenario_sample] !! k)
    (fun _ => true) (fun _ => true) ∅ ∅.

(** Twelve steps on the scenario's pair. *)
Definition twelve_step_world : World :=
  world_of (args_of 3 12 RESTORE_FROM) false None
    (replicate 12 scenario_sample) ∅.


(** ** Python built-ins on concrete inputs *)

Example split_ckpt : Py.split "-" "model.ckpt-1000" = ["model.ckpt"; "1000"].
Proof. reflexivity. Qed.

Example split_empty : Py.split "-" "" = [""].
Proof. reflexivity. Qed.

Example basename_ckpt : Py.basename "./snapshots/model.ckpt-1000" = "model.ckpt-1000".
Proof. reflexivity. Qed.

Example int_1000 : Py.int "1000" = inr 1000.
Proof. reflexivity. Qed.

Example int_padded : Py.int " +1_000 " = inr 1000.
Proof. reflexivity. Qed.

Example int_bad : Py.int "model.ckpt" = inl (Py.ValueError "model.ckpt").
Proof. reflexivity. Qed.

Example str_12 : Py.str 12 = "12".
Proof. reflexivity. Qed.

Example str_0 : Py.str 0 = "0".
Proof. reflexivity. Qed.

(** ** The metric accumulator *)

Section MetricFacts.

Import Metric.

Lemma add_at_zero cm gt pred : add_at cm gt pred 0 = cm.
Proof.
  unfold add_at. destruct (_ && _); [|reflexivity].
  apply list_alter_id. intros row. apply list_alter_id. intros x. lia.
Qed.

Lemma weights_cons g gs n :
  weights (g :: gs) n = (if g <=? n - 1 then 1 else 0) :: weights gs n.
Proof. reflexivity. Qed.

Lemma weights_ignored gt n :
  Forall (fun g => n <= g) gt -> Forall (fun x => x = 0) (weights gt n).
Proof.
  induction 1 as [|g gs Hg _ IH]; [constructor|].
  rewrite weights_cons. constructor; [|exact IH].
  destruct (Z.leb_spec g (n - 1)); [lia|reflexivity].
Qed.

Lemma update_zero_weights cm preds gt ws :
  Forall (fun x => x = 0) ws -> update cm preds gt ws = cm.
Proof.
  intros H. revert cm preds gt.
  induction H as [|x ws -> _ IH]; intros cm preds gt.
  - destruct preds, gt; reflexivity.
  - destruct preds as [|p ps], gt as [|g gs]; try reflexivity.
    cbn [update]. rewrite add_at_zero. apply IH.
Qed.

Lemma nth_seq_id {A} (d : A) (l : list A) :
  map (fun j => nth j l d) (seq 0 (length l)) = l.
Proof.
  induction l as [|x l IH]; [reflexivity|].
  cbn [length seq map nth]. f_equal.
  rewrite <- seq_shift, map_map. exact IH.
Qed.

Lemma row_sum_entries n cm c :
  length (nth c cm []) = n ->
  row_sum cm c = Zsum (map (entry cm c) (seq 0 n)).
Proof.
  intros <-. unfold row_sum, entry.
  now rewrite (nth_seq_id 0 (nth c cm [])).
Qed.

Lemma col_sum_entries n cm c :
  length cm = n ->
  col_sum cm c = Zsum (map (fun i => entry cm i c) (seq 0 n)).
Proof.
  intros <-. unfold col_sum, entry.
  rewrite <- (nth_seq_id [] cm) at 1. now rewrite map_map.
Qed.

Lemma valid_classes_spec n cm c :
  In c (valid_classes n cm) <-> (c < n)%nat /\ union cm c <> 0.
Proof.
  unfold valid_classes. rewrite filter_In, in_seq.
  destruct (Z.eqb_spec (union cm c) 0); cbn; intuition (try lia; try discriminate).
Qed.

(** The accumulator of a run stays a square matrix. *)
Lemma zeros_square n : square n (zeros n).
Proof.
  unfold square, zeros. rewrite length_replicate. split; [reflexivity|].
  apply Forall_replicate. apply length_replicate.
Qed.

Lemma add_at_square n cm g p x : square n cm -> square n (add_at cm g p x).
Proof.
  intros [Hlen Hrows]. unfold add_at. destruct (_ && _); [|now split].
  split; [now rewrite length_alter|].
  apply Forall_alter; [exact Hrows|]. intros row _ Hrow. now rewrite length_alter.
Qed.

Lemma update_square n preds : forall cm gt ws,
  square n cm -> square n (update cm preds gt ws).
Proof.
  induction preds as [|p ps IH]; intros cm gt ws Hsq; [exact Hsq|].
  destruct gt as [|g gs], ws as [|x xs]; try exact Hsq.
  cbn [update]. apply IH. now apply add_at_square.
Qed.

End MetricFacts.

(** C1. A pixel whose ground-truth label is at least [num_classes] gets
    weight zero at line 102, and an update made of such pixels only leaves
    the confusion matrix as it was, both in the accumulator and in the
    [sess.run] of line 134 that feeds it.  Among other pixels they count
    for nothing either: an update gives what it gives with them removed. *)
Theorem ignored_pixels_leave_accumulator (n : Z) (cm : list (list Z))
    (preds gt : list Z) :
  Forall (fun g => n <= g) gt ->
  Forall (fun x => x = 0) (weights gt n) /\
  Metric.update cm preds gt (weights gt n) = cm /\
  (forall w s, num_classes (args w) = n ->
     fetch w (params s) (cursor s) = Some (preds, gt) ->
     fst (run_pred_update w s) = inr preds /\
     total_cm (snd (run_pred_update w s)) = total_cm s) /\
  (forall (labels : list Z) i g,
     labels !! i = Some g -> n <= g -> weights labels n !! i = Some 0) /\
  (forall cm' pixels,
     Metric.update cm' (map fst pixels) (map snd pixels)
       (weights (map snd pixels) n) =
     Metric.update cm' (map fst (counted n pixels)) (map snd (counted n pixels))
       (weights (map snd (counted n pixels)) n)).
Proof.
  intros Hgt. pose proof (weights_ignored gt n Hgt) as Hw.
  split; [exact Hw|]. split; [now apply update_zero_weights|].
  split; [|split].
  - intros w s Hn Hf. unfold run_pred_update, mbind, M_bind, gets, id.
    rewrite Hf. cbn. split; [reflexivity|].
    rewrite Hn. now apply update_zero_weights.
  - intros labels i g Hi Hg. unfold weights. rewrite list_lookup_fmap, Hi.
    cbn. destruct (Z.leb_spec g (n - 1)); [lia|reflexivity].
  - intros cm' pixels. revert cm'.
    induction pixels as [|[p g] pixels IH]; intros cm'; [reflexivity|].
    unfold counted. cbn [List.filter snd map]. fold (counted n pixels).
    rewrite weights_cons. cbn [Metric.update].
    destruct (Z.ltb_spec g n) as [Hlt|Hge].
    + cbn [map fst snd]. rewrite weights_cons. cbn [Metric.update].
      apply IH.
    + destruct (Z.leb_spec g (n - 1)); [lia|].
      rewrite add_at_zero. apply IH.
Qed.

Lemma ignored_pixels_leave_accumulator_witness :
  Forall (fun g => 3 <= g) [255; 3] /\
  Metric.update scenario_cm [0; 2] [255; 3] (weights [255; 3] 3) = scenario_cm.
Proof.
  split; [repeat constructor; lia|].
  apply (ignored_pixels_leave_accumulator 3 scenario_cm [0; 2] [255; 3]).
  repeat constructor; lia.
Defined.

Lemma Qsum_constant (f : nat -> Q) (q : Q) (l : list nat) :
  (forall c, In c l -> (f c == q)%Q) ->
  (fold_right Qplus 0 (map f l) == q * inject_Z (Z.of_nat (length l)))%Q.
Proof.
  induction l as [|c l IH]; intros Hq.
  - cbn. ring.
  - cbn [map fold_right length]. rewrite (Hq c) by now left.
    rewrite IH by (intros c' Hc'; apply Hq; now right).
    rewrite Nat2Z.inj_succ. unfold Z.succ. rewrite inject_Z_plus. ring.
Qed.

(** C2. On a [num_classes] x [num_classes] confusion matrix the value query
    uses, for each class [c], intersection = confusion[c][c] and
    union = (sum of row c) + (sum of column c) - confusion[c][c]; the
    classes that enter the mean are the classes of nonzero union, each once,
    and the mean IoU is the sum of intersection/union over them divided by
    their number, so that it is [q] whenever each of them has IoU [q].
    The right-hand sides are written with the sums of the standard
    library, not with the accumulator's own.  The query of line 143 returns
    that value. *)
Theorem value_query_mean_iou (n : nat) (cm : list (list Z)) :
  length cm = n ->
  Forall (fun row => length row = n) cm ->
  let I := fun c : nat => nth c (nth c cm []) 0 in
  let U := fun c : nat =>
    fold_right Z.add 0 (map (fun j => nth j (nth c cm []) 0) (seq 0 n))
    + fold_right Z.add 0 (map (fun i => nth c (nth i cm []) 0) (seq 0 n))
    - nth c (nth c cm []) 0 in
  let valid := List.filter (fun c => negb (U c =? 0)) (seq 0 n) in
  (forall c, (c < n)%nat ->
     Metric.intersection cm c = I c /\
     Metric.union cm c = U c /\
     Metric.iou cm c == inject_Z (I c) / inject_Z (U c)) /\
  Metric.valid_classes n cm = valid /\
  (forall c, In c valid <-> (c < n)%nat /\ U c <> 0) /\
  List.NoDup valid /\
  (valid <> [] ->
     Metric.mean_iou n cm ==
       fold_right Qplus 0%Q
         (map (fun c => inject_Z (I c) / inject_Z (U c))%Q valid)
       / inject_Z (Z.of_nat (length valid))) /\
  (forall q, valid <> [] ->
     (forall c, In c valid -> (inject_Z (I c) / inject_Z (U c) == q)%Q) ->
     (Metric.mean_iou n cm == q)%Q) /\
  (forall w s, classes w = n -> total_cm s = cm ->
     eval_mIoU w s = (inr (Metric.mean_iou n cm), s)).
Proof.
  intros Hlen Hrows I U valid.
  assert (forall c, (c < n)%nat -> Metric.union cm c = U c) as HU.
  { intros c Hc. unfold Metric.union, U.
    rewrite (row_sum_entries n), (col_sum_entries n); auto.
    rewrite List.Forall_forall in Hrows. apply Hrows. apply nth_In. lia. }
  assert (Metric.valid_classes n cm = valid) as Hvalid.
  { unfold Metric.valid_classes, valid. apply filter_ext_in.
    intros c Hc. apply in_seq in Hc. rewrite HU by lia. reflexivity. }
  assert (forall c, In c valid <-> (c < n)%nat /\ U c <> 0) as Hin.
  { intros c. unfold valid. rewrite filter_In, in_seq.
    destruct (Z.eqb_spec (U c) 0); cbn; intuition (try lia; try discriminate). }
  assert (map (Metric.iou cm) valid
          = map (fun c => inject_Z (I c) / inject_Z (U c))%Q valid) as Hmap.
  { apply map_ext_in. intros c Hc. apply Hin in Hc as [Hc _].
    unfold Metric.iou. now rewrite (HU c Hc). }
  assert (valid <> [] ->
          Metric.mean_iou n cm ==
            fold_right Qplus 0%Q
              (map (fun c => inject_Z (I c) / inject_Z (U c))%Q valid)
            / inject_Z (Z.of_nat (length valid))) as Hmean.
  { intros Hne. unfold Metric.mean_iou. rewrite Hvalid.
    destruct valid as [|c v] eqn:Hv; [contradiction|].
    rewrite Hmap. reflexivity. }
  split; [|split; [exact Hvalid|split; [exact Hin|split; [|split; [exact Hmean|split]]]]].
  - intros c Hc. split; [reflexivity|]. split; [now apply HU|].
    unfold Metric.iou. now rewrite (HU c Hc).
  - unfold valid. apply List.NoDup_filter. apply seq_NoDup.
  - intros q Hne Hq. rewrite (Hmean Hne), (Qsum_constant _ q valid Hq).
    field. intros H0. apply Hne. destruct valid; [reflexivity|].
    cbn [length] in H0. rewrite Nat2Z.inj_succ in H0.
    unfold Qeq in H0. cbn in H0. lia.
  - intros w s <- <-. reflexivity.
Qed.

Lemma value_query_mean_iou_witness :
  length scenario_cm = 3%nat /\
  Metric.valid_classes 3 scenario_cm = [0; 1; 2]%nat /\
  Metric.mean_iou 3 scenario_cm ==
    (((1 # 2) + ((1 # 2) + ((1 # 1) + 0))) / 3)%Q.
Proof.
  split; [reflexivity|].
  pose proof (value_query_mean_iou 3 scenario_cm eq_refl) as H.
  destruct H as (_ & Hv & _ & _ & Hm & _); [repeat constructor|].
  split; [exact Hv|]. apply Hm. discriminate.
Defined.

(** A class that never occurs, in the labels or in the predictions, has
    union zero and stays out of the mean: here class 1. *)
Example absent_class_excluded : Metric.mean_iou 2 [[1; 0]; [0; 0]] == 1%Q.
Proof. reflexivity. Qed.

(** C3. In the 2x2 scenario with three classes, one update gives a confusion
    matrix with three diagonal entries and one off-diagonal entry (true
    class 1 predicted as 0).  Class 0 is predicted twice and true once,
    class 1 is true twice and predicted once, so the per-class IoU are
    1/2, 1/2 and 1/1, and the value query returns their average 2/3, which
    is 0.6667 to four decimals. *)
Theorem scenario_mean_iou :
  scenario_cm = [[1; 0; 0]; [1; 1; 0]; [0; 0; 1]] /\
  map (Metric.union scenario_cm) [0; 1; 2]%nat = [2; 2; 1] /\
  map (Metric.iou scenario_cm) [0; 1; 2]%nat = [1 # 2; 1 # 2; 1 # 1]%Q /\
  Metric.mean_iou 3 scenario_cm == ((1 # 2) + (1 # 2) + (1 # 1)) / 3 /\
  Metric.mean_iou 3 scenario_cm == 2 # 3 /\
  rounds_to (Metric.mean_iou 3 scenario_cm) (6667 # 10000).
Proof.
  repeat split; try reflexivity; vm_compute; congruence.
Qed.

(** The same through [main]: one step on the scenario's pair reports the
    metric 8/12 at step 0. *)
Example scenario_report :
  stdout (snd (run (world_of (args_of 3 1 RESTORE_FROM) false None
                      [scenario_sample] ∅)))
  = [LText "No checkpoint file found."; LStep 0 (8 # 12)].
Proof. reflexivity. Qed.

(** The scenario's mean IoU is neither the average of 1/1, 1/2 and 1/1 nor
    a number that rounds to 0.8333. *)
Lemma scenario_mean_iou_not_five_sixths :
  ~ (Metric.mean_iou 3 scenario_cm == ((1 # 1) + (1 # 2) + (1 # 1)) / 3 \/
     rounds_to (Metric.mean_iou 3 scenario_cm) (8333 # 10000)).
Proof.
  intros [H | [H _]]; vm_compute in H; [discriminate | apply H; reflexivity].
Qed.

(** ** One iteration and the loop *)

Section LoopFacts.

Variable w : World.

(** The three ways an iteration can end. *)
Lemma body_cases step s :
  (fetch w (params s) (cursor s) = None /\
   body w step s = (inl (Py.RunError (cursor s)), s)) \/
  (exists pred gt,
     fetch w (params s) (cursor s) = Some (pred, gt) /\
     is_save w = true /\ save_ok w (mask_path step) = false /\
     body w step s = (inl (Py.IOError (mask_path step)), after_run w s pred gt)) \/
  (exists pred gt,
     fetch w (params s) (cursor s) = Some (pred, gt) /\
     (is_save w = true -> save_ok w (mask_path step) = true) /\
     body w step s = (inr tt, after_body w step s pred gt)).
Proof.
  unfold body, run_pred_update, save, eval_mIoU, after_body, after_run.
  fold (mask_path step). unfold_M.
  destruct (fetch w (params s) (cursor s)) as [[pred gt]|]; [|left; auto].
  right. cbn. destruct (is_save w) eqn:Hsave; cbn.
  - destruct (save_ok w (mask_path step)) eqn:Hok; cbn.
    + right. exists pred, gt. split; [reflexivity|]. split; [auto|].
      destruct (_ =? _)%nat; cbn; rewrite <- ?app_assoc, ?app_nil_r; reflexivity.
    + left. exists pred, gt. auto.
  - right. exists pred, gt. split; [reflexivity|]. split; [discriminate|].
    destruct (_ =? _)%nat; cbn; rewrite ?app_nil_r; reflexivity.
Qed.

Lemma for_each_app l1 l2 (f : nat -> M unit) s :
  for_each (l1 ++ l2) f s =
  match for_each l1 f s with
  | (inr _, s1) => for_each l2 f s1
  | (inl e, s1) => (inl e, s1)
  end.
Proof.
  revert s. induction l1 as [|x l1 IH]; intros s; [reflexivity|].
  cbn [app for_each]. unfold mbind, M_bind.
  destruct (f x s) as [[e|[]] s1]; [reflexivity|]. apply IH.
Qed.

Lemma runs_app t1 t2 : runs (t1 ++ t2) = runs t1 ++ runs t2.
Proof. apply omap_app. Qed.

Lemma saves_app t1 t2 : saves (t1 ++ t2) = saves t1 ++ saves t2.
Proof. apply omap_app. Qed.

Lemma run_params_app t1 t2 :
  run_params (t1 ++ t2) = run_params t1 ++ run_params t2.
Proof. apply omap_app. Qed.

Lemma loop_completed l : forall s s',
  for_each l (body w) s = (inr tt, s') -> loop_post w l s s'.
Proof.
  induction l as [|x l IH]; intros s s' H.
  - cbn in H. injection H as <-. unfold loop_post.
    cbn [length accumulate map seq]. rewrite Nat.add_0_r, app_nil_r.
    destruct (is_save w); cbn; rewrite app_nil_r, union_empty_r_L; auto 10.
  - cbn [for_each] in H. unfold mbind, M_bind in H.
    destruct (body_cases x s) as [[_ Hb] | [(p & g & _ & _ & _ & Hb) | (p & g & Hf & _ & Hb)]];
      rewrite Hb in H; try discriminate.
    apply IH in H. destruct H as (Hc & Hp & Hd & Hcm & Hr & Hs & Hfl).
    unfold loop_post. cbn [length accumulate]. rewrite Hf.
    cbn in Hc, Hp, Hd, Hcm, Hfl. cbn [after_body trace] in Hr, Hs.
    rewrite runs_app in Hr. rewrite saves_app in Hs.
    destruct (is_save w); cbn in Hr, Hs, Hfl |- *;
      rewrite <- ?app_assoc in Hr, Hs; cbn in Hr, Hs;
      rewrite ?dom_insert_L in Hfl;
      (split; [lia|]); repeat (split; [assumption|]);
      rewrite Hfl; set_solver.
Qed.

(** The loop runs to its end when every iteration can complete. *)
Lemma loop_completes l : forall s,
  (forall i x, l !! i = Some x ->
     is_Some (fetch w (params s) (cursor s + i)%nat) /\
     (is_save w = true -> save_ok w (mask_path x) = true)) ->
  exists s', for_each l (body w) s = (inr tt, s').
Proof.
  induction l as [|x l IH]; intros s Hok; [eexists; reflexivity|].
  cbn [for_each]. unfold mbind, M_bind.
  destruct (Hok 0%nat x eq_refl) as [[pg Hf] Hsv]. rewrite Nat.add_0_r in Hf.
  destruct (body_cases x s) as [[Hn _] | [(p & g & _ & Hs & Hno & _) | (p & g & _ & _ & Hb)]].
  - congruence.
  - rewrite (Hsv Hs) in Hno. discriminate.
  - rewrite Hb. apply IH. intros i y Hy. cbn [after_body params cursor].
    replace (S (cursor s) + i)%nat with (cursor s + S i)%nat by lia.
    apply (Hok (S i) y). exact Hy.
Qed.

(** Whatever its outcome, the loop touches neither the directories nor
    the parameters, and only adds runs under those parameters and saves
    to the trace. *)
Lemma loop_frame l : forall s,
  let s' := snd (for_each l (body w) s) in
  dirs s' = dirs s /\ params s' = params s /\
  exists out evs,
    stdout s' = stdout s ++ out /\
    trace s' = trace s ++ evs /\ Forall (loop_event (params s)) evs.
Proof.
  induction l as [|x l IH]; intros s; cbn zeta.
  - cbn. repeat split. exists [], []. rewrite !app_nil_r. auto.
  - cbn [for_each]. unfold mbind, M_bind.
    destruct (body_cases x s) as [[_ Hb] | [(p & g & _ & _ & _ & Hb) | (p & g & _ & _ & Hb)]];
      rewrite Hb.
    + cbn. repeat split. exists [], []. rewrite !app_nil_r. auto.
    + cbn. repeat split. exists [], [EvRun (cursor s) (params s)].
      rewrite app_nil_r. repeat split. repeat constructor.
    + specialize (IH (after_body w x s p g)). cbn zeta in IH.
      destruct IH as (Hd & Hp & out & evs & Ho & Ht & Hev).
      cbn in Hd, Hp, Ho, Ht, Hev.
      repeat split; [exact Hd | exact Hp |].
      eexists _, _. rewrite Ho, Ht, <- !app_assoc. repeat split.
      apply Forall_app. split; [|exact Hev].
      constructor; [reflexivity|]. destruct (is_save w); repeat constructor.
Qed.

(** The loop can only raise what [sess.run] or [im.save] raise. *)
Lemma loop_raises l : forall s e,
  fst (for_each l (body w) s) = inl e ->
  (exists k, e = Py.RunError k) \/ (exists p, e = Py.IOError p).
Proof.
  induction l as [|x l IH]; intros s e; [discriminate|].
  cbn [for_each]. unfold mbind, M_bind.
  destruct (body_cases x s) as [[_ Hb] | [(p & g & _ & _ & _ & Hb) | (p & g & _ & _ & Hb)]];
    rewrite Hb; cbn [fst].
  - intros [= <-]. eauto.
  - intros [= <-]. eauto.
  - apply IH.
Qed.

Lemma loop_event_run_params p evs :
  Forall (loop_event p) evs -> Forall (fun q => q = p) (run_params evs).
Proof.
  induction 1 as [|e evs He _ IH]; [constructor|].
  destruct e; cbn in *; try exact IH; try contradiction.
  constructor; [exact He | exact IH].
Qed.

Lemma loop_event_not_makedirs p evs :
  Forall (loop_event p) evs -> Forall (fun e => forall d, e <> EvMakedirs d) evs.
Proof.
  intros H. eapply List.Forall_impl; [|exact H].
  intros [] He d; cbn in He; try contradiction; discriminate.
Qed.

End LoopFacts.

(** ** The phases of [main] *)

Section MainFacts.

Variable w : World.

(** [main] is its phases in sequence; an exception of a phase ends the run
    there. *)
Lemma main_phases s :
  main w s =
  match load_checkpoint w (snd (init_variables w s)) with
  | (inl e, s1) => (inl e, s1)
  | (inr load_step, s1) =>
      match ensure_save_dir w s1 with
      | (inl e, s2) => (inl e, s2)
      | (inr _, s2) =>
          match eval_loop w s2 with
          | (inl e, s3) => (inl e, s3)
          | (inr _, s3) => (inr load_step, s3)
          end
      end
  end.
Proof.
  unfold main, init_variables. unfold_M. cbn.
  destruct (load_checkpoint w _) as [[e|ls] s1]; [reflexivity|].
  destruct (ensure_save_dir w s1) as [[e|[]] s2]; [reflexivity|].
  destruct (eval_loop w s2) as [[e|[]] s3]; reflexivity.
Qed.

Lemma save_dir_exists s :
  os_path_exists s SAVE_DIR = bool_decide (SAVE_DIR ∈ dirs s).
Proof.
  unfold os_path_exists. cbn. now rewrite andb_false_r, orb_false_r.
Qed.

(** The three outcomes of lines 130-131. *)
Lemma ensure_save_dir_cases s :
  if bool_decide (SAVE_DIR ∈ dirs s) then ensure_save_dir w s = (inr tt, s)
  else if makedirs_works w s SAVE_DIR then
    ensure_save_dir w s =
    (inr tt, mkState (stdout s) (params s) (total_cm s) (cursor s)
                     ({[SAVE_DIR]} ∪ dirs s) (files s)
                     (trace s ++ [EvMakedirs SAVE_DIR]))
  else ensure_save_dir w s = (inl (Py.OSError SAVE_DIR), s).
Proof.
  unfold ensure_save_dir, makedirs. unfold_M. rewrite save_dir_exists.
  destruct (bool_decide (SAVE_DIR ∈ dirs s)); cbn; [reflexivity|].
  destruct (makedirs_works w s SAVE_DIR); reflexivity.
Qed.

(** When lines 130-131 go through, the directory is in place and nothing
    else has changed. *)
Lemma ensure_save_dir_post s s' :
  ensure_save_dir w s = (inr tt, s') ->
  SAVE_DIR ∈ dirs s' /\
  stdout s' = stdout s /\ params s' = params s /\
  total_cm s' = total_cm s /\ cursor s' = cursor s /\
  files s' = files s /\
  trace s' = trace s ++ (if bool_decide (SAVE_DIR ∈ dirs s)
                         then [] else [EvMakedirs SAVE_DIR]) /\
  dirs s ⊆ dirs s'.
Proof.
  intros H. pose proof (ensure_save_dir_cases s) as Hc.
  destruct (bool_decide_reflect (SAVE_DIR ∈ dirs s)) as [Hin|Hout].
  - rewrite Hc in H. injection H as <-. rewrite app_nil_r. auto 10.
  - destruct (makedirs_works w s SAVE_DIR); rewrite Hc in H; [|discriminate].
    injection H as <-. cbn. repeat split; set_solver.
Qed.

(** When they raise, nothing has changed. *)
Lemma ensure_save_dir_raises s e s' :
  ensure_save_dir w s = (inl e, s') ->
  e = Py.OSError SAVE_DIR /\ s' = s /\ SAVE_DIR ∉ dirs s.
Proof.
  intros H. pose proof (ensure_save_dir_cases s) as Hc.
  destruct (bool_decide_reflect (SAVE_DIR ∈ dirs s)) as [Hin|Hout].
  - rewrite Hc in H. discriminate.
  - destruct (makedirs_works w s SAVE_DIR); rewrite Hc in H; [discriminate|].
    injection H as <- <-. auto.
Qed.

(** The three outcomes of lines 117-125. *)
Lemma load_checkpoint_cases s :
  match usable (get_checkpoint_state w SNAPSHOT_DIR) with
  | None =>
      load_checkpoint w s =
      (inr 0, mkState (stdout s ++ [LText "No checkpoint file found."])
                      (params s) (total_cm s) (cursor s) (dirs s) (files s)
                      (trace s))
  | Some path =>
      match parse_load_step path with
      | inl e => load_checkpoint w s = (inl e, s)
      | inr n =>
          if restore_ok w path then
            load_checkpoint w s =
            (inr n, mkState
                      (stdout s ++
                         [LText ("Restored model parameters from " +:+ path)])
                      (Restored path) (total_cm s) (cursor s) (dirs s)
                      (files s) (trace s ++ [EvRestore path]))
          else load_checkpoint w s = (inl (Py.RestoreError path), s)
      end
  end.
Proof.
  unfold load_checkpoint, load.
  destruct (usable _) as [path|]; [|reflexivity].
  unfold_M. destruct (parse_load_step path) as [e|n]; [reflexivity|].
  destruct (restore_ok w path); reflexivity.
Qed.

Lemma load_checkpoint_loads s :
  checkpoint_loads w = true ->
  exists load_step s1, load_checkpoint w s = (inr load_step, s1).
Proof.
  unfold checkpoint_loads. intros H. pose proof (load_checkpoint_cases s) as Hc.
  destruct (usable _) as [path|]; [|eauto].
  destruct (parse_load_step path) as [e|n]; [discriminate|].
  rewrite H in Hc. eauto.
Qed.

Lemma load_checkpoint_raises s :
  checkpoint_loads w = false ->
  exists e, load_checkpoint w s = (inl e, s).
Proof.
  unfold checkpoint_loads. intros H. pose proof (load_checkpoint_cases s) as Hc.
  destruct (usable _) as [path|]; [|discriminate].
  destruct (parse_load_step path) as [e|n]; [eauto|].
  rewrite H in Hc. eauto.
Qed.

(** The checkpoint phase touches neither the files nor the directories. *)
Lemma load_checkpoint_frame s :
  let s1 := snd (load_checkpoint w s) in
  files s1 = files s /\ dirs s1 = dirs s /\ cursor s1 = cursor s /\
  total_cm s1 = total_cm s /\ runs (trace s1) = runs (trace s) /\
  saves (trace s1) = saves (trace s).
Proof.
  pose proof (load_checkpoint_cases s) as Hc. cbn zeta.
  destruct (usable _) as [path|]; [|rewrite Hc; cbn; auto 10].
  destruct (parse_load_step path) as [e|n]; [rewrite Hc; cbn; auto 10|].
  destruct (restore_ok w path); rewrite Hc; cbn; rewrite ?runs_app, ?saves_app;
    cbn; rewrite ?app_nil_r; auto 10.
Qed.

(** Whether lines 130-131 go through is settled by the environment: the
    checkpoint phase has not touched the file system. *)
Lemma ensure_save_dir_ready load_step s1 :
  load_checkpoint w (snd (init_variables w (initial_state w))) = (inr load_step, s1) ->
  if save_dir_ready w
  then exists s2, ensure_save_dir w s1 = (inr tt, s2)
  else ensure_save_dir w s1 = (inl (Py.OSError SAVE_DIR), s1).
Proof.
  intros Hload.
  pose proof (load_checkpoint_frame (snd (init_variables w (initial_state w))))
    as (Hfiles & Hdirs & _).
  rewrite Hload in Hfiles, Hdirs. cbn in Hfiles, Hdirs.
  pose proof (ensure_save_dir_cases s1) as Hc.
  unfold save_dir_ready. rewrite Hdirs in Hc.
  assert (makedirs_works w s1 SAVE_DIR
          = makedirs_works w (initial_state w) SAVE_DIR) as Hmk
    by (unfold makedirs_works; now rewrite Hfiles).
  rewrite Hmk in Hc.
  destruct (bool_decide (SAVE_DIR ∈ dirs0 w)); cbn; [eauto|].
  destruct (makedirs_works w (initial_state w) SAVE_DIR); eauto.
Qed.

(** When the checkpoint phase and lines 130-131 go through, the loop starts
    from a state where nothing has run or been saved, the reader is at its
    start and the output directory exists, created just now if it was
    absent. *)
Lemma before_loop load_step s1 s2 :
  load_checkpoint w (snd (init_variables w (initial_state w))) = (inr load_step, s1) ->
  ensure_save_dir w s1 = (inr tt, s2) ->
  cursor s2 = 0%nat /\ files s2 = files0 w /\
  total_cm s2 = Metric.zeros (classes w) /\
  SAVE_DIR ∈ dirs s2 /\ dirs0 w ⊆ dirs s2 /\
  (exists pre,
     trace s2 = pre ++ (if bool_decide (SAVE_DIR ∈ dirs0 w)
                        then [] else [EvMakedirs SAVE_DIR]) /\
     runs pre = [] /\ saves pre = [] /\ run_params pre = [] /\
     Forall (fun e => forall p, e <> EvMakedirs p) pre) /\
  (usable (get_checkpoint_state w SNAPSHOT_DIR) = None ->
     load_step = 0 /\ params s2 = Initialized /\
     stdout s2 = [LText "No checkpoint file found."]).
Proof.
  intros Hload Hens.
  pose proof (load_checkpoint_cases (snd (init_variables w (initial_state w)))) as Hc.
  pose proof (ensure_save_dir_post s1 s2 Hens)
    as (Hdir & Hout & Hpar & Hcm & Hcur & Hfiles & Htr & Hsub).
  rewrite Hcur, Hfiles, Hcm, Htr, Hpar, Hout.
  destruct (usable _) as [path|].
  - destruct (parse_load_step path) as [e|n]; [congruence|].
    destruct (restore_ok w path); [|congruence].
    rewrite Hc in Hload. injection Hload as <- <-. cbn in *.
    repeat (split; [solve [auto]|]). split; [|discriminate].
    exists [EvRestore path]. repeat split. repeat constructor. discriminate.
  - rewrite Hc in Hload. injection Hload as <- <-. cbn in *.
    repeat (split; [solve [auto]|]). split; [|auto].
    exists []. repeat split. constructor.
Qed.

(** What the checkpoint phase leaves when it goes through. *)
Lemma loader_output (load_step : Z) (s1 : State) :
  load_checkpoint w (snd (init_variables w (initial_state w))) = (inr load_step, s1) ->
  stdout s1 = [loader_line w] /\ cursor s1 = 0%nat /\
  total_cm s1 = Metric.zeros (classes w) /\ runs (trace s1) = [] /\
  dirs s1 = dirs0 w /\ files s1 = files0 w.
Proof.
  intros Hload.
  pose proof (load_checkpoint_cases (snd (init_variables w (initial_state w)))) as Hc.
  rewrite Hload in Hc. unfold loader_line. destruct (usable _) as [path|].
  - destruct (parse_load_step path); [discriminate|].
    destruct (restore_ok w path); [|discriminate].
    injection Hc as _ Hs1. rewrite Hs1. cbn. auto 10.
  - injection Hc as _ Hs1. rewrite Hs1. cbn. auto 10.
Qed.

(** A run whose checkpoint phase went through: it ends at line 131, or it
    is the loop from the state lines 130-131 leave. *)
Lemma run_after_load load_step s1 :
  load_checkpoint w (snd (init_variables w (initial_state w))) = (inr load_step, s1) ->
  if save_dir_ready w
  then exists s2,
         ensure_save_dir w s1 = (inr tt, s2) /\
         run w = match eval_loop w s2 with
                 | (inl e, s3) => (inl e, s3)
                 | (inr _, s3) => (inr load_step, s3)
                 end
  else run w = (inl (Py.OSError SAVE_DIR), s1).
Proof.
  intros Hload. pose proof (ensure_save_dir_ready load_step s1 Hload) as Hens.
  unfold run. rewrite main_phases, Hload.
  destruct (save_dir_ready w).
  - destruct Hens as (s2 & Hens). exists s2. split; [exact Hens|].
    now rewrite Hens.
  - now rewrite Hens.
Qed.

End MainFacts.

(** ** The checkpoint loader *)




Lemma split_no_sep sep name :
  sep ∉ list_ascii_of_string name -> Py.split sep name = [name].
Proof.
  induction name as [|c name IH]; [reflexivity|].
  cbn [list_ascii_of_string Py.split]. intros Hnot.
  destruct (Ascii.eqb_spec c sep) as [->|_]; [exfalso; apply Hnot; left|].
  rewrite IH; [reflexivity|]. intros Hin. apply Hnot. now right.
Qed.

(** C6. When a checkpoint is found and the base name of its path has no
    second '-'-separated field (it has no '-'), line 121 raises
    [IndexError]; when that second field is an ASCII string that is not an
    integer literal, it raises [ValueError].  Nothing handles either, so the
    run ends there, before anything is restored, created or evaluated, and
    [load_step] never falls back to 0.  For an ASCII name with at most one
    '-' the second field is the suffix: such a name without an integer
    suffix always ends the run this way. *)
Theorem malformed_checkpoint_name_aborts (w : World) (path : string) :
  usable (get_checkpoint_state w SNAPSHOT_DIR) = Some path ->
  let fields := Py.split "-" (Py.basename path) in
  ("-"%char ∉ list_ascii_of_string (Py.basename path) ->
     fst (run w) = inl Py.IndexError) /\
  (fields !! 1%nat = None -> fst (run w) = inl Py.IndexError) /\
  (forall f, fields !! 1%nat = Some f -> is_ascii f = true ->
     Py.int f = inl (Py.ValueError f) ->
     fst (run w) = inl (Py.ValueError f)) /\
  ((length fields <= 2)%nat -> is_ascii (Py.basename path) = true ->
     has_step_suffix (Py.basename path) = false ->
     fst (run w) = inl Py.IndexError \/
     exists f, fst (run w) = inl (Py.ValueError f)) /\
  (forall e, parse_load_step path = inl e ->
     e = Py.IndexError \/ is_ascii (Py.basename path) = true ->
     run w = (inl e, snd (init_variables w (initial_state w)))).
Proof.
  intros Hu fields.
  assert (forall e, parse_load_step path = inl e ->
            run w = (inl e, snd (init_variables w (initial_state w)))) as Hrun.
  { intros e He. unfold run. rewrite main_phases.
    pose proof (load_checkpoint_cases w (snd (init_variables w (initial_state w)))) as Hc.
    rewrite Hu, He in Hc. now rewrite Hc. }
  assert (fields !! 1%nat = None -> fst (run w) = inl Py.IndexError) as Hidx.
  { intros Hf. rewrite (Hrun Py.IndexError); [reflexivity|].
    unfold parse_load_step, Py.index. fold fields. now rewrite Hf. }
  assert (forall f, fields !! 1%nat = Some f -> Py.int f = inl (Py.ValueError f) ->
            fst (run w) = inl (Py.ValueError f)) as Hval.
  { intros f Hf Hint. rewrite (Hrun (Py.ValueError f)); [reflexivity|].
    unfold parse_load_step, Py.index. fold fields. now rewrite Hf. }
  split; [|split; [|split; [|split]]]; auto.
  - intros Hno. apply Hidx. unfold fields. now rewrite split_no_sep.
  - intros Hlen _ Hsuf. unfold has_step_suffix in Hsuf. fold fields in Hsuf.
    destruct fields as [|a [|b [|c r]]] eqn:Hfields; cbn in Hlen; try lia.
    + left. now apply Hidx.
    + left. now apply Hidx.
    + right. exists b. apply Hval; [reflexivity|].
      cbn [List.last] in Hsuf. unfold Py.int in *.
      destruct (Py.int_of_chars _); [discriminate|reflexivity].
Qed.

Lemma malformed_checkpoint_name_aborts_witness :
  usable (get_checkpoint_state no_dash_world SNAPSHOT_DIR)
    = Some "./snapshots/model.ckpt" /\
  fst (run no_dash_world) = inl Py.IndexError.
Proof.
  split; [reflexivity|].
  apply (malformed_checkpoint_name_aborts no_dash_world "./snapshots/model.ckpt");
    reflexivity.
Defined.

(** A second field that is not an integer, before an integer suffix. *)
Example dashed_prefix_raises :
  parse_load_step "./snapshots/my-model.ckpt-1000" = inl (Py.ValueError "model.ckpt").
Proof. reflexivity. Qed.

(** A control character of the range 28-31 is not white space for
    [int()]. *)
Example unit_separator_not_stripped :
  Py.int (String (ascii_of_nat 31) "5")
  = inl (Py.ValueError (String (ascii_of_nat 31) "5")).
Proof. reflexivity. Qed.

(** The checkpoint [model-5-final] has no integer step suffix, yet line 121
    reads its second field: the run ends normally with [load_step] 5. *)
Lemma no_suffix_yet_no_error :
  usable (get_checkpoint_state odd_name_world SNAPSHOT_DIR)
    = Some "./snapshots/model-5-final" /\
  has_step_suffix (Py.basename "./snapshots/model-5-final") = false /\
  fst (run odd_name_world) = inr 5.
Proof. repeat split; reflexivity. Qed.

(** ** The evaluation loop *)

Lemma range_split (n k : nat) :
  (k < n)%nat -> seq 0 n = seq 0 k ++ k :: seq (S k) (n - S k).
Proof.
  intros Hk. replace n with (k + S (n - S k))%nat at 1 by lia.
  now rewrite seq_app.
Qed.

(** The iterations before a failing one have all run. *)
Lemma loop_prefix (w : World) (s : State) (k : nat) :
  (forall j, (j < k)%nat -> step_ok w s j) ->
  exists s1, for_each (seq 0 k) (body w) s = (inr tt, s1) /\
             loop_post w (seq 0 k) s s1.
Proof.
  intros Hok. destruct (loop_completes w (seq 0 k) s) as (s1 & H1).
  { intros i x Hx. apply lookup_seq in Hx as [-> Hlt]. apply (Hok i Hlt). }
  exists s1. split; [exact H1|]. now apply loop_completed.
Qed.

(** C7. With [num_steps] = N >= 0, the loop makes exactly N iterations:
    when every step can complete, it ends normally after the [sess.run]
    calls for steps 0 to N-1, one per step, each a forward pass with one
    update of the accumulator, whatever the predictions and the metric are.
    A step whose [sess.run] or whose save fails raises: no later step runs,
    and the exception ends [main]. *)
Theorem loop_runs_num_steps (w : World) (s : State) :
  0 <= num_steps (args w) ->
  let N := Z.to_nat (num_steps (args w)) in
  Z.of_nat N = num_steps (args w) /\
  ((forall k, (k < N)%nat -> step_ok w s k) ->
   exists s',
     eval_loop w s = (inr tt, s') /\
     runs (trace s') = runs (trace s) ++ seq (cursor s) N /\
     cursor s' = (cursor s + N)%nat /\
     total_cm s' = accumulate w (params s) (total_cm s) (cursor s) N) /\
  (forall k, (k < N)%nat ->
     (forall j, (j < k)%nat -> step_ok w s j) ->
     fetch w (params s) (cursor s + k)%nat = None ->
     exists s',
       eval_loop w s = (inl (Py.RunError (cursor s + k)), s') /\
       runs (trace s') = runs (trace s) ++ seq (cursor s) k /\
       total_cm s' = accumulate w (params s) (total_cm s) (cursor s) k) /\
  (forall k, (k < N)%nat ->
     (forall j, (j < k)%nat -> step_ok w s j) ->
     is_Some (fetch w (params s) (cursor s + k)%nat) ->
     is_save w = true -> save_ok w (mask_path k) = false ->
     exists s',
       eval_loop w s = (inl (Py.IOError (mask_path k)), s') /\
       runs (trace s') = runs (trace s) ++ seq (cursor s) (S k)) /\
  (forall s0 load_step s1 s2 e s3,
     load_checkpoint w (snd (init_variables w s0)) = (inr load_step, s1) ->
     ensure_save_dir w s1 = (inr tt, s2) ->
     eval_loop w s2 = (inl e, s3) ->
     main w s0 = (inl e, s3)).
Proof.
  intros HN N. split; [apply Z2Nat.id; exact HN|].
  split; [|split; [|split]].
  - intros Hok. destruct (loop_prefix w s N Hok) as (s' & Hrun & Hpost).
    exists s'. split; [exact Hrun|].
    destruct Hpost as (Hc & _ & _ & Hcm & Hr & _).
    rewrite length_seq in Hc, Hcm, Hr. auto.
  - intros k Hk Hok Hnone.
    destruct (loop_prefix w s k Hok) as (s1 & Hrun & Hpost).
    destruct Hpost as (Hc & Hp & _ & Hcm & Hr & _).
    rewrite length_seq in Hc, Hcm, Hr.
    exists s1. unfold eval_loop, range. fold N.
    rewrite (range_split N k Hk), for_each_app, Hrun.
    cbn [for_each]. unfold mbind, M_bind.
    destruct (body_cases w k s1) as [[_ Hb] | [(p & g & Hf & _) | (p & g & Hf & _)]];
      [| rewrite Hp, Hc in Hf; congruence ..].
    rewrite Hb, Hc. auto.
  - intros k Hk Hok [pg Hsome] Hsave Hfail.
    destruct (loop_prefix w s k Hok) as (s1 & Hrun & Hpost).
    destruct Hpost as (Hc & Hp & _ & _ & Hr & _).
    rewrite length_seq in Hc, Hr.
    unfold eval_loop, range. fold N.
    rewrite (range_split N k Hk), for_each_app, Hrun.
    cbn [for_each]. unfold mbind, M_bind.
    destruct (body_cases w k s1) as [[Hf _] | [(p & g & _ & _ & _ & Hb) | (p & g & _ & Hs & _)]].
    + rewrite Hp, Hc in Hf. congruence.
    + rewrite Hb. eexists. split; [reflexivity|].
      cbn [after_run trace]. rewrite runs_app, Hr, Hc, <- app_assoc.
      rewrite seq_S. reflexivity.
    + rewrite (Hs Hsave) in Hfail. discriminate.
  - intros s0 ls s1 s2 e s3 Hload Hens Hloop.
    now rewrite main_phases, Hload, Hens, Hloop.
Qed.

Lemma loop_runs_num_steps_witness :
  0 <= num_steps (args short_reader_world) /\
  exists s',
    eval_loop short_reader_world
      (mkState [] Initialized (Metric.zeros 3) 0 ∅ ∅ [])
    = (inl (Py.RunError 1), s') /\
    runs (trace s') = [0%nat].
Proof.
  split; [cbn; lia|].
  destruct (loop_runs_num_steps short_reader_world
              (mkState [] Initialized (Metric.zeros 3) 0 ∅ ∅ []))
    as (_ & _ & Hfail & _); [cbn; lia|].
  destruct (Hfail 1%nat) as (s' & Hrun & Hr & _).
  - cbn. lia.
  - intros j Hj. assert (j = 0%nat) as -> by lia.
    split; [eexists; reflexivity | discriminate].
  - reflexivity.
  - exists s'. split; [exact Hrun | exact Hr].
Defined.

(** ** The output directory *)

(** C9. The value of [--restore-from] selects nothing: two runs that differ
    only in it are the same run, and so is their checkpoint phase, which
    asks [tf.train.get_checkpoint_state] about [SNAPSHOT_DIR]. *)
Theorem restore_from_is_unused (w : World) (r1 r2 : string) :
  restore_from (args (with_restore_from r1 w)) = r1 /\
  restore_from (args (with_restore_from r2 w)) = r2 /\
  (forall s, load_checkpoint (with_restore_from r1 w) s
             = load_checkpoint (with_restore_from r2 w) s) /\
  (forall s, load_checkpoint w s =
     match usable (get_checkpoint_state w "./snapshots") with
     | Some path => (load_step ← lift (parse_load_step path);
                     load w path ;; mret load_step) s
     | None => (print (LText "No checkpoint file found.") ;; mret 0) s
     end) /\
  run (with_restore_from r1 w) = run (with_restore_from r2 w).
Proof.
  repeat split; try reflexivity.
  intros s. unfold load_checkpoint. change SNAPSHOT_DIR with "./snapshots".
  destruct (usable _); reflexivity.
Qed.

(** C10. On every run whose checkpoint phase goes through, lines 130-131 are
    reached before the loop, with the save flag on or off.  When the output
    directory is present or [os.makedirs] can create it, it exists after the
    run, whether or not a mask was written and whether the loop ends
    normally or a step fails; [os.makedirs] is called exactly when the
    directory was absent, after the checkpoint phase and before the first
    [sess.run].  When [os.makedirs] raises, the run ends there: no
    directory, no [sess.run], no file. *)
Theorem save_dir_created_before_loop (w : World) :
  checkpoint_loads w = true ->
  (save_dir_ready w = true ->
   SAVE_DIR ∈ dirs (snd (run w)) /\
   dirs0 w ⊆ dirs (snd (run w)) /\
   exists pre evs,
     trace (snd (run w)) =
       pre ++ (if bool_decide (SAVE_DIR ∈ dirs0 w)
               then [] else [EvMakedirs SAVE_DIR]) ++ evs /\
     runs pre = [] /\ saves pre = [] /\
     Forall (fun e => forall d, e <> EvMakedirs d) pre /\
     Forall (fun e => forall d, e <> EvMakedirs d) evs) /\
  (save_dir_ready w = false ->
   fst (run w) = inl (Py.OSError SAVE_DIR) /\
   (SAVE_DIR ∉ dirs (snd (run w))) /\
   runs (trace (snd (run w))) = [] /\
   saves (trace (snd (run w))) = [] /\
   files (snd (run w)) = files0 w).
Proof.
  intros Hloads.
  destruct (load_checkpoint_loads w (snd (init_variables w (initial_state w))) Hloads)
    as (ls & s1 & Hload).
  pose proof (run_after_load w ls s1 Hload) as Hrun.
  pose proof (loader_output w ls s1 Hload) as (_ & _ & _ & Hr1 & Hd1 & Hf1).
  pose proof (load_checkpoint_frame w (snd (init_variables w (initial_state w))))
    as (_ & _ & _ & _ & _ & Hs1).
  rewrite Hload in Hs1. cbn in Hs1.
  destruct (save_dir_ready w) eqn:Hready; (split; [|intros; discriminate])
    || (split; [intros; discriminate|]).
  - intros _. destruct Hrun as (s2 & Hens & Hrun).
    destruct (before_loop w ls s1 s2 Hload Hens)
      as (_ & _ & _ & Hdir & Hsub & (pre & Htr & Hr & Hs & _ & Hpre) & _).
    pose proof (loop_frame w (range (num_steps (args w))) s2) as Hfr.
    cbn zeta in Hfr. fold (eval_loop w) in Hfr.
    destruct Hfr as (Hd & Hp & _ & evs & _ & Hst & Hev).
    assert (let s3 := snd (eval_loop w s2) in
            SAVE_DIR ∈ dirs s3 /\ dirs0 w ⊆ dirs s3 /\
            trace s3 = pre ++ (if bool_decide (SAVE_DIR ∈ dirs0 w)
                               then [] else [EvMakedirs SAVE_DIR]) ++ evs) as Hall.
    { cbn zeta. rewrite Hd, Hst, Htr, <- app_assoc. auto. }
    cbn zeta in Hall. destruct Hall as (H1 & H2 & H3).
    apply loop_event_not_makedirs in Hev. rewrite Hrun.
    destruct (eval_loop w s2) as [[e|[]] s3]; cbn [snd] in *;
      (split; [exact H1|]; split; [exact H2|]; exists pre, evs; auto 10).
  - intros _. rewrite Hrun. cbn [fst snd]. rewrite Hd1, Hr1, Hs1, Hf1.
    pose proof (ensure_save_dir_ready w ls s1 Hload) as Hens.
    rewrite Hready in Hens. apply ensure_save_dir_raises in Hens as (_ & _ & Hout).
    rewrite Hd1 in Hout. auto 10.
Qed.

Lemma save_dir_created_before_loop_witness :
  checkpoint_loads short_reader_world = true /\
  save_dir_ready short_reader_world = true /\
  SAVE_DIR ∈ dirs (snd (run short_reader_world)).
Proof.
  split; [reflexivity|]. split; [reflexivity|].
  destruct (save_dir_created_before_loop short_reader_world eq_refl)
    as [H _].
  destruct (H eq_refl) as (Hin & _). exact Hin.
Defined.

(** With the flag as the source has it, two steps save nothing and the
    directory is created all the same. *)
Example source_flag_saves_nothing :
  trace (snd (run (two_step_world IS_SAVE)))
  = [EvMakedirs "./output/"; EvRun 0 Initialized; EvRun 1 Initialized] /\
  files (snd (run (two_step_world IS_SAVE))) = ∅.
Proof. split; reflexivity. Qed.

(** A checkpoint named [model.ckpt] ends the run at line 121, before line
    130: afterwards the output directory still does not exist. *)
Lemma aborted_run_leaves_no_save_dir :
  fst (run no_dash_world) = inl Py.IndexError /\
  ~ SAVE_DIR ∈ dirs (snd (run no_dash_world)).
Proof.
  split; [reflexivity|].
  apply (bool_decide_eq_false_1 (SAVE_DIR ∈ dirs (snd (run no_dash_world)))).
  reflexivity.
Qed.

(** ** The load step of a checkpoint name *)

Section LoadStep.

Import Py.

Lemma chars_app (a b : string) :
  list_ascii_of_string (a +:+ b) = list_ascii_of_string a ++ list_ascii_of_string b.
Proof.
  induction a as [|c a IH]; [reflexivity|].
  simpl. f_equal. exact IH.
Qed.

Lemma split_nonempty sep s : split sep s <> [].
Proof.
  destruct s as [|c s]; cbn; [discriminate|].
  destruct (Ascii.eqb c sep); [discriminate|].
  destruct (split sep s); discriminate.
Qed.

(** Splitting distributes over a separator. *)
Lemma split_app sep a b :
  split sep (a +:+ String sep b) = split sep a ++ split sep b.
Proof.
  induction a as [|c a IH]; simpl.
  - now rewrite Ascii.eqb_refl.
  - rewrite IH. destruct (Ascii.eqb c sep); [reflexivity|].
    pose proof (split_nonempty sep a) as Hne.
    destruct (split sep a); [contradiction|reflexivity].
Qed.

Lemma basename_app d name :
  "/"%char ∉ list_ascii_of_string name ->
  basename (d +:+ String "/" name) = name.
Proof.
  intros Hno. unfold basename.
  rewrite split_app, (split_no_sep "/" name Hno). apply last_last.
Qed.

Lemma basename_plain name :
  "/"%char ∉ list_ascii_of_string name -> basename name = name.
Proof. intros Hno. unfold basename. now rewrite (split_no_sep "/" name Hno). Qed.

Lemma uint_chars_digits d :
  Forall is_digit (list_ascii_of_string (NilEmpty.string_of_uint d)).
Proof.
  induction d; cbn; constructor; try assumption; eexists; reflexivity.
Qed.

Lemma str_digits n : Forall is_digit (list_ascii_of_string (str n)).
Proof.
  unfold str, NilZero.string_of_uint.
  pose proof (uint_chars_digits (Nat.to_uint n)) as H.
  destruct (Nat.to_uint n); try exact H.
  repeat constructor. eexists; reflexivity.
Qed.

Lemma digit_not_space c : is_digit c -> is_space c = false.
Proof.
  intros [d Hd]. unfold digit_val in Hd. unfold is_space.
  destruct (_ && _) eqn:Hr in Hd; [|discriminate].
  apply andb_prop in Hr as [H1 H2].
  apply Z.leb_le in H1. apply Z.leb_le in H2.
  destruct (Nat.leb_spec 9 (nat_of_ascii c)), (Nat.leb_spec (nat_of_ascii c) 13),
    (Nat.eqb_spec (nat_of_ascii c) 32);
    cbn; try reflexivity; lia.
Qed.

Lemma digit_not_char c (x : ascii) :
  is_digit c -> digit_val x = None -> x <> c.
Proof. intros [d Hd] Hx ->. congruence. Qed.

Lemma lstrip_no_space l :
  Forall (fun c => is_space c = false) l -> lstrip l = l.
Proof. destruct 1 as [|c l Hc _]; cbn; [reflexivity | now rewrite Hc]. Qed.

Lemma strip_no_space l :
  Forall (fun c => is_space c = false) l -> strip l = l.
Proof.
  intros H. unfold strip. rewrite (lstrip_no_space l H).
  rewrite lstrip_no_space; [apply rev_involutive|].
  apply List.Forall_rev. exact H.
Qed.

(** Reading back a decimal numeral, most significant digit first. *)
Lemma digits_uint d : forall acc prev,
  d <> Decimal.Nil \/ prev = true ->
  digits (Z.of_nat acc) prev (list_ascii_of_string (NilEmpty.string_of_uint d))
  = Some (Z.of_nat (Nat.of_uint_acc d acc)).
Proof.
  induction d; intros acc prev Hd;
    [destruct Hd as [Hd| ->]; [contradiction | reflexivity] | ..];
    cbn [NilEmpty.string_of_uint list_ascii_of_string digits Nat.of_uint_acc];
    match goal with
    | |- context [digit_val ?c] =>
        let v := eval vm_compute in (digit_val c) in
        change (digit_val c) with v; cbv iota
    end;
    match goal with
    | |- digits _ true _ = Some (Z.of_nat (Nat.of_uint_acc d ?a)) =>
        rewrite <- (IHd a true (or_intror eq_refl)); f_equal;
        rewrite Nat.tail_mul_spec; lia
    end.
Qed.

End LoadStep.

Lemma digit_not_sign c r :
  is_digit c ->
  match c :: r with
  | "+"%char :: r' => Py.digits 0 false r'
  | "-"%char :: r' => Z.opp <$> Py.digits 0 false r'
  | l => Py.digits 0 false l
  end = Py.digits 0 false (c :: r).
Proof.
  intros [d Hd].
  destruct c as [[] [] [] [] [] [] [] []]; try reflexivity;
    vm_compute in Hd; discriminate.
Qed.

(** [int(str(n))] is [n]. *)
Lemma int_str n : Py.int (Py.str n) = inr (Z.of_nat n).
Proof.
  pose proof (str_digits n) as Hdig.
  unfold Py.int, Py.int_of_chars. rewrite strip_no_space.
  2:{ eapply List.Forall_impl; [|exact Hdig]. apply digit_not_space. }
  assert (Py.digits 0 false (list_ascii_of_string (Py.str n))
          = Some (Z.of_nat n)) as Hval.
  { unfold Py.str, NilZero.string_of_uint.
    pose proof (DecimalNat.Unsigned.of_to n) as Hn. unfold Nat.of_uint in Hn.
    destruct (Nat.to_uint n) eqn:Hu;
      [cbn in Hn; subst n; reflexivity | ..];
      rewrite <- Hn; apply (digits_uint _ 0%nat false); left; discriminate. }
  destruct (list_ascii_of_string (Py.str n)) as [|c r] eqn:Hl.
  - cbn. cbn in Hval. discriminate.
  - rewrite digit_not_sign by (now inversion Hdig). now rewrite Hval.
Qed.

Lemma str_inj a b : Py.str a = Py.str b -> a = b.
Proof.
  intros H. pose proof (int_str a) as Ha. rewrite H, int_str in Ha.
  injection Ha as Ha. lia.
Qed.

Lemma str_no_char (x : ascii) n :
  Py.digit_val x = None -> x ∉ list_ascii_of_string (Py.str n).
Proof.
  intros Hx Hin. pose proof (str_digits n) as Hdig.
  rewrite List.Forall_forall in Hdig. apply list_elem_of_In in Hin.
  destruct (Hdig x Hin) as [d Hd]. congruence.
Qed.

(** X1. Line 121 takes the base name first: the directory part of the
    checkpoint path, dashes included, has no part in the load step or in
    the exception raised. *)
Theorem load_step_ignores_directory (d name : string) :
  ("/"%char ∉ list_ascii_of_string name) ->
  parse_load_step (d +:+ String "/" name) = parse_load_step name.
Proof.
  intros Hno. unfold parse_load_step.
  now rewrite basename_app, basename_plain.
Qed.

Lemma load_step_ignores_directory_witness :
  ("/"%char ∉ list_ascii_of_string "model.ckpt-7") /\
  parse_load_step ("./snap-shots-2017" +:+ String "/" "model.ckpt-7")
  = parse_load_step "model.ckpt-7".
Proof.
  assert ("/"%char ∉ list_ascii_of_string "model.ckpt-7") as H by compute_done.
  split; [exact H|].
  apply (load_step_ignores_directory "./snap-shots-2017" "model.ckpt-7" H).
Defined.

(** X2. For a checkpoint file named [prefix-N], with N written by [str] and
    no dash or slash in the prefix, in any directory, line 121 recovers
    exactly N. *)
Theorem load_step_round_trip (d prefix : string) (n : nat) :
  ("/"%char ∉ list_ascii_of_string prefix) ->
  ("-"%char ∉ list_ascii_of_string prefix) ->
  parse_load_step (d +:+ "/" +:+ prefix +:+ "-" +:+ Py.str n)
  = inr (Z.of_nat n).
Proof.
  intros Hslash Hdash.
  change (d +:+ "/" +:+ prefix +:+ "-" +:+ Py.str n)
    with (d +:+ String "/" (prefix +:+ String "-" (Py.str n))).
  unfold parse_load_step. rewrite basename_app.
  2:{ rewrite chars_app. cbn [list_ascii_of_string].
      intros Hin. apply elem_of_app in Hin as [Hin|Hin]; [now apply Hslash|].
      apply elem_of_cons in Hin as [Hin|Hin]; [discriminate|].
      revert Hin. now apply str_no_char. }
  rewrite split_app, (split_no_sep "-" prefix Hdash).
  rewrite (split_no_sep "-" (Py.str n)) by now apply str_no_char.
  cbn. apply int_str.
Qed.

Lemma load_step_round_trip_witness :
  ("/"%char ∉ list_ascii_of_string "model.ckpt") /\
  ("-"%char ∉ list_ascii_of_string "model.ckpt") /\
  parse_load_step ("./snapshots" +:+ "/" +:+ "model.ckpt" +:+ "-" +:+ Py.str 2000)
  = inr 2000.
Proof.
  assert ("/"%char ∉ list_ascii_of_string "model.ckpt") as H1 by compute_done.
  assert ("-"%char ∉ list_ascii_of_string "model.ckpt") as H2 by compute_done.
  split; [exact H1|]. split; [exact H2|].
  apply (load_step_round_trip "./snapshots" "model.ckpt" 2000 H1 H2).
Defined.

(** ** The checkpoint phase, continued *)

(** X3. When a checkpoint is found, its load step parses and the restore
    succeeds, the run restores once, before anything else, and prints
    'Restored model parameters from <path>' first; every [sess.run] of the
    run computes with the restored parameters.  When the output directory
    exists or [os.makedirs] can create it, the accumulator starts from zero,
    only a failing step can end the run early, and when every step can
    complete [main] ends normally with the parsed load step; when
    [os.makedirs] raises, the run ends at line 131 and no step runs. *)
Theorem checkpoint_restored_run (w : World) (path : string) (n : Z) :
  usable (get_checkpoint_state w SNAPSHOT_DIR) = Some path ->
  parse_load_step path = inr n ->
  restore_ok w path = true ->
  (exists out,
     stdout (snd (run w)) =
       LText ("Restored model parameters from " +:+ path) :: out) /\
  (exists evs,
     trace (snd (run w)) = EvRestore path :: evs /\
     Forall (fun e => forall q, e <> EvRestore q) evs) /\
  Forall (fun p => p = Restored path) (run_params (trace (snd (run w)))) /\
  (save_dir_ready w = false ->
     fst (run w) = inl (Py.OSError SAVE_DIR) /\
     runs (trace (snd (run w))) = []) /\
  (save_dir_ready w = true ->
     (fst (run w) = inr n \/
      (exists k, fst (run w) = inl (Py.RunError k)) \/
      (exists p, fst (run w) = inl (Py.IOError p))) /\
     ((forall k, (k < Z.to_nat (num_steps (args w)))%nat ->
         is_Some (fetch w (Restored path) k) /\
         (is_save w = true -> save_ok w (mask_path k) = true)) ->
      fst (run w) = inr n /\
      runs (trace (snd (run w))) = seq 0 (Z.to_nat (num_steps (args w))) /\
      total_cm (snd (run w)) =
        accumulate w (Restored path) (Metric.zeros (classes w)) 0
          (Z.to_nat (num_steps (args w))))).
Proof.
  intros Hu Hparse Hok.
  pose proof (load_checkpoint_cases w (snd (init_variables w (initial_state w)))) as Hc.
  rewrite Hu, Hparse, Hok in Hc. cbn [init_variables modify snd] in Hc.
  match type of Hc with _ = (_, ?s) => set (s1 := s) in * end.
  pose proof (run_after_load w n s1 Hc) as Hrun.
  destruct (save_dir_ready w).
  2:{ rewrite Hrun. cbn.
      split; [eauto|]. split; [exists []; split; [reflexivity|constructor]|].
      split; [constructor|]. split; [auto|discriminate]. }
  destruct Hrun as (s2 & Hens & Hrun).
  pose proof (ensure_save_dir_post w s1 s2 Hens)
    as (_ & Hout & Hpar & Hcm & Hcur & _ & Htr & _).
  cbn in Hout, Hpar, Hcm, Hcur, Htr.
  pose proof (loop_frame w (range (num_steps (args w))) s2)
    as (_ & _ & out & evs & Hso & Hst & Hev).
  pose proof (loop_raises w (range (num_steps (args w))) s2) as Hex.
  fold (eval_loop w) in Hso, Hst, Hex. rewrite Hpar in Hev.
  rewrite Hrun.
  split; [|split; [|split; [|split; [discriminate|intros _; split]]]].
  - exists out. rewrite Hout in Hso.
    destruct (eval_loop w s2) as [[e|[]] s3]; exact Hso.
  - exists ((if bool_decide (SAVE_DIR ∈ dirs0 w) then []
             else [EvMakedirs SAVE_DIR]) ++ evs).
    rewrite Htr in Hst.
    split; [destruct (eval_loop w s2) as [[e|[]] s3]; exact Hst|].
    apply Forall_app. split.
    + destruct (bool_decide _); repeat constructor; discriminate.
    + eapply List.Forall_impl; [|exact Hev].
      intros [] He q; cbn in He; try contradiction; discriminate.
  - assert (Forall (fun p => p = Restored path)
              (run_params (trace (snd (eval_loop w s2))))) as Hall.
    { rewrite Hst, Htr, !run_params_app.
      destruct (bool_decide _); cbn; now apply loop_event_run_params. }
    destruct (eval_loop w s2) as [[e|[]] s3]; exact Hall.
  - destruct (eval_loop w s2) as [[e|[]] s3]; cbn [fst]; [|auto].
    right. destruct (Hex e eq_refl) as [[k ->]|[p ->]]; eauto.
  - intros Hsteps.
    destruct (loop_completes w (range (num_steps (args w))) s2) as (s3 & Hloop).
    { intros i x Hx. apply lookup_seq in Hx as [-> Hlt]. cbn [Nat.add].
      rewrite Hpar, Hcur. cbn [Nat.add]. apply Hsteps. exact Hlt. }
    fold (eval_loop w) in Hloop. rewrite Hloop. split; [reflexivity|].
    apply loop_completed in Hloop as (_ & _ & _ & Hacc & Hr & _).
    cbn [snd]. rewrite Hr, Hacc, Htr, Hcur, Hpar, Hcm.
    unfold range. rewrite length_seq.
    split; [destruct (bool_decide _); reflexivity | reflexivity].
Qed.

Lemma checkpoint_restored_run_witness :
  usable (get_checkpoint_state (restored_world false) SNAPSHOT_DIR)
    = Some "./snapshots/model.ckpt-1000" /\
  parse_load_step "./snapshots/model.ckpt-1000" = inr 1000 /\
  restore_ok (restored_world false) "./snapshots/model.ckpt-1000" = true /\
  Forall (fun p => p = Restored "./snapshots/model.ckpt-1000")
    (run_params (trace (snd (run (restored_world false))))).
Proof.
  split; [reflexivity|]. split; [reflexivity|]. split; [reflexivity|].
  destruct (checkpoint_restored_run (restored_world false)
              "./snapshots/model.ckpt-1000" 1000 eq_refl eq_refl eq_refl)
    as (_ & _ & H & _).
  exact H.
Defined.

(** X4. When a checkpoint with an ASCII name is found and the checkpoint
    phase fails, because the load step does not parse or because the restore
    raises, the run ends there with that exception: nothing is printed, no
    directory is created, no file is written and nothing is evaluated.  The
    parse comes before the restore, so a name that does not parse is never
    restored. *)
Theorem failed_checkpoint_phase_ends_run (w : World) (path : string) :
  usable (get_checkpoint_state w SNAPSHOT_DIR) = Some path ->
  is_ascii (Py.basename path) = true ->
  checkpoint_loads w = false ->
  exists e,
    run w = (inl e, snd (init_variables w (initial_state w))) /\
    (e = Py.IndexError \/ (exists f, e = Py.ValueError f) \/
     (e = Py.RestoreError path /\ exists n, parse_load_step path = inr n)) /\
    stdout (snd (run w)) = [] /\ trace (snd (run w)) = [] /\
    dirs (snd (run w)) = dirs0 w /\ files (snd (run w)) = files0 w.
Proof.
  intros Hu _ Hfail. unfold run. rewrite main_phases.
  pose proof (load_checkpoint_cases w (snd (init_variables w (initial_state w)))) as Hc.
  unfold checkpoint_loads in Hfail. rewrite Hu in Hc, Hfail.
  destruct (parse_load_step path) as [e|n] eqn:Hp.
  - rewrite Hc. exists e. split; [reflexivity|]. split; [|cbn; auto].
    unfold parse_load_step, Py.index in Hp.
    destruct (_ !! _) as [f|]; [|injection Hp as <-; auto].
    unfold Py.int in Hp. destruct (Py.int_of_chars _); [discriminate|].
    injection Hp as <-. eauto.
  - rewrite Hfail in Hc. rewrite Hc. exists (Py.RestoreError path).
    split; [reflexivity|]. split; [|cbn; auto]. right. right. eauto.
Qed.

Lemma failed_checkpoint_phase_ends_run_witness :
  usable (get_checkpoint_state broken_restore_world SNAPSHOT_DIR)
    = Some "./snapshots/model.ckpt-1000" /\
  is_ascii (Py.basename "./snapshots/model.ckpt-1000") = true /\
  checkpoint_loads broken_restore_world = false /\
  exists e, run broken_restore_world
            = (inl e, snd (init_variables broken_restore_world
                             (initial_state broken_restore_world))).
Proof.
  split; [reflexivity|]. split; [reflexivity|]. split; [reflexivity|].
  destruct (failed_checkpoint_phase_ends_run broken_restore_world
              "./snapshots/model.ckpt-1000" eq_refl eq_refl eq_refl)
    as (e & He & _).
  exists e. exact He.
Defined.

(** X5. A checkpoint state whose [model_checkpoint_path] is empty fails the
    test of line 119 and is handled as no checkpoint at all: line 121, which
    would raise [IndexError] on the empty path, is not reached; the loader
    prints 'No checkpoint file found.', sets [load_step] to 0, restores
    nothing, and the run is the run without a checkpoint. *)
Theorem empty_checkpoint_path_is_no_checkpoint (w : World)
    (c : CheckpointState) :
  get_checkpoint_state w SNAPSHOT_DIR = Some c ->
  model_checkpoint_path c = "" ->
  parse_load_step (model_checkpoint_path c) = inl Py.IndexError /\
  checkpoint_loads w = true /\
  loader_line w = LText "No checkpoint file found." /\
  (forall s, fst (load_checkpoint w s) = inr 0 /\
             params (snd (load_checkpoint w s)) = params s /\
             trace (snd (load_checkpoint w s)) = trace s) /\
  run w = run (with_checkpoint None w).
Proof.
  intros Hck Hempty.
  assert (usable (get_checkpoint_state w SNAPSHOT_DIR) = None) as Hu.
  { rewrite Hck. unfold usable. now rewrite Hempty. }
  split; [now rewrite Hempty|].
  split; [unfold checkpoint_loads; now rewrite Hu|].
  split; [unfold loader_line; now rewrite Hu|].
  assert (forall s, load_checkpoint w s = load_checkpoint (with_checkpoint None w) s)
    as Hsame.
  { intros s. pose proof (load_checkpoint_cases w s) as Hc.
    rewrite Hu in Hc. rewrite Hc. reflexivity. }
  split.
  - intros s. rewrite Hsame. cbn. auto.
  - unfold run. rewrite !main_phases.
    change (init_variables (with_checkpoint None w)) with (init_variables w).
    change (initial_state (with_checkpoint None w)) with (initial_state w).
    rewrite Hsame.
    destruct (load_checkpoint (with_checkpoint None w) _) as [[e|ls] s1];
      reflexivity.
Qed.

Lemma empty_checkpoint_path_is_no_checkpoint_witness :
  get_checkpoint_state (with_checkpoint (Some (mkCkpt "")) short_reader_world)
    SNAPSHOT_DIR = Some (mkCkpt "") /\
  model_checkpoint_path (mkCkpt "") = "" /\
  checkpoint_loads (with_checkpoint (Some (mkCkpt "")) short_reader_world) = true.
Proof.
  split; [reflexivity|]. split; [reflexivity|].
  apply (empty_checkpoint_path_is_no_checkpoint
           (with_checkpoint (Some (mkCkpt "")) short_reader_world)
           (mkCkpt "") eq_refl eq_refl).
Defined.

(** ** The loop, continued *)

Lemma accumulate_step w p cm c n pred gt :
  fetch w p c = Some (pred, gt) ->
  accumulate w p cm c (S n) =
  accumulate w p (Metric.update cm pred gt (weights gt (num_classes (args w))))
    (S c) n.
Proof. intros Hf. cbn [accumulate]. now rewrite Hf. Qed.

(** The reports of a completed loop over the steps [a, a + n). *)
Lemma loop_reports (w : World) (n : nat) : forall a s s',
  for_each (seq a n) (body w) s = (inr tt, s') ->
  stdout s' =
  stdout s ++
  map (fun step =>
         LStep step
           (Metric.mean_iou (classes w)
              (accumulate w (params s) (total_cm s) (cursor s) (S (step - a)))))
      (List.filter (fun step => (step mod 10 =? 0)%nat) (seq a n)).
Proof.
  induction n as [|n IH]; intros a s s' H.
  - cbn in H. injection H as <-. cbn. now rewrite app_nil_r.
  - cbn [seq for_each] in H. unfold mbind, M_bind in H.
    destruct (body_cases w a s)
      as [[_ Hb] | [(p & g & _ & _ & _ & Hb) | (p & g & Hf & _ & Hb)]];
      rewrite Hb in H; try discriminate.
    apply IH in H. rewrite H. cbn [after_body stdout params total_cm cursor].
    cbn [seq List.filter]. rewrite <- app_assoc. f_equal.
    assert (map (fun step => LStep step (Metric.mean_iou (classes w)
                   (accumulate w (params s)
                      (Metric.update (total_cm s) p g
                         (weights g (num_classes (args w))))
                      (S (cursor s)) (S (step - S a)))))
              (List.filter (fun step => (step mod 10 =? 0)%nat) (seq (S a) n))
            = map (fun step => LStep step (Metric.mean_iou (classes w)
                   (accumulate w (params s) (total_cm s) (cursor s)
                      (S (step - a)))))
              (List.filter (fun step => (step mod 10 =? 0)%nat) (seq (S a) n)))
      as Hrest.
    { apply map_ext_in. intros step Hin.
      apply filter_In in Hin as [Hin _]. apply in_seq in Hin.
      replace (step - a)%nat with (S (step - S a)) by lia.
      now rewrite (accumulate_step w (params s) (total_cm s) (cursor s) _ p g Hf). }
    rewrite Hrest. destruct (a mod 10 =? 0)%nat; [|reflexivity].
    cbn [map app]. f_equal. f_equal. f_equal.
    rewrite Nat.sub_diag.
    now rewrite (accumulate_step w (params s) (total_cm s) (cursor s) _ p g Hf).
Qed.

(** X6. What a run that ends normally has printed: the line of the
    checkpoint phase, then one report for every step that is a multiple of
    ten, in order; the report of step k carries the metric of the matrix
    that started from zero and was fed the first k + 1 pairs.  The final
    matrix has been fed all [num_steps] pairs. *)
Theorem output_of_completed_run (w : World) (load_step : Z) (s' : State) :
  run w = (inr load_step, s') ->
  stdout s' =
    loader_line w ::
    reports w (params s') (Metric.zeros (classes w)) 0
      (Z.to_nat (num_steps (args w))) /\
  total_cm s' =
    accumulate w (params s') (Metric.zeros (classes w)) 0
      (Z.to_nat (num_steps (args w))).
Proof.
  intros Hrun. unfold run in Hrun. rewrite main_phases in Hrun.
  destruct (load_checkpoint w _) as [[e|ls] s1] eqn:Hload; [discriminate|].
  destruct (ensure_save_dir w s1) as [[e|[]] s2] eqn:Hens; [discriminate|].
  pose proof (ensure_save_dir_post w s1 s2 Hens)
    as (_ & Hout & Hpar & Hcm & Hcur & _).
  pose proof (loader_output w ls s1 Hload) as (Hl & Hc0 & Hz & _).
  destruct (eval_loop w s2) as [[e|[]] s3] eqn:Hloop; [discriminate|].
  injection Hrun as -> ->.
  pose proof (loop_reports w _ 0%nat s2 s' Hloop) as Hrep.
  apply loop_completed in Hloop as (_ & Hp' & _ & Hacc & _).
  unfold range in Hacc. rewrite length_seq in Hacc.
  rewrite Hp'. rewrite Hacc, Hrep, Hout, Hl, Hcm, Hz, Hcur, Hc0.
  unfold reports. split; [|reflexivity].
  cbn [app]. f_equal. apply map_ext. intros step.
  now rewrite Nat.sub_0_r.
Qed.

Lemma output_of_completed_run_witness :
  fst (run twelve_step_world) = inr 0 /\
  stdout (snd (run twelve_step_world))
  = [LText "No checkpoint file found."; LStep 0 (8 # 12);
     LStep 10 (10648 # 15972)].
Proof.
  assert (fst (run twelve_step_world) = inr 0) as Hfst by reflexivity.
  split; [exact Hfst|].
  destruct (output_of_completed_run twelve_step_world 0
              (snd (run twelve_step_world))) as [H _].
  - rewrite <- Hfst. apply surjective_pairing.
  - rewrite H. reflexivity.
Defined.

(** X7. With [num_steps] zero or negative the loop body never runs: no
    exception, no [sess.run].  A run whose checkpoint phase goes through
    and whose output directory exists or can be created then ends normally
    having printed the loader's line only, with the accumulator still zero
    and no file written, and the output directory in place all the same. *)
Theorem nonpositive_num_steps_skip_loop (w : World) :
  num_steps (args w) <= 0 ->
  (forall s, eval_loop w s = (inr tt, s)) /\
  (checkpoint_loads w = true -> save_dir_ready w = true ->
   exists n,
     fst (run w) = inr n /\
     stdout (snd (run w)) = [loader_line w] /\
     runs (trace (snd (run w))) = [] /\
     total_cm (snd (run w)) = Metric.zeros (classes w) /\
     files (snd (run w)) = files0 w /\
     SAVE_DIR ∈ dirs (snd (run w))).
Proof.
  intros Hle.
  assert (Z.to_nat (num_steps (args w)) = 0%nat) as HN
    by (destruct (num_steps (args w)); try reflexivity; lia).
  assert (forall s, eval_loop w s = (inr tt, s)) as Hloop.
  { intros s. unfold eval_loop, range. now rewrite HN. }
  split; [exact Hloop|]. intros Hloads Hready.
  destruct (load_checkpoint_loads w (snd (init_variables w (initial_state w))) Hloads)
    as (ls & s1 & Hload).
  pose proof (run_after_load w ls s1 Hload) as Hrun. rewrite Hready in Hrun.
  destruct Hrun as (s2 & Hens & Hrun). rewrite Hloop in Hrun.
  destruct (before_loop w ls s1 s2 Hload Hens)
    as (_ & Hfiles & Hcm & Hdir & _ & (pre & Htr & Hr & _) & _).
  pose proof (loader_output w ls s1 Hload) as (Hl & _).
  pose proof (ensure_save_dir_post w s1 s2 Hens) as (_ & Hout & _).
  rewrite Hl in Hout. rewrite Hrun. cbn [fst snd]. exists ls.
  split; [reflexivity|]. split; [exact Hout|].
  split; [|auto].
  rewrite Htr, runs_app, Hr. destruct (bool_decide _); reflexivity.
Qed.

Lemma nonpositive_num_steps_skip_loop_witness :
  num_steps (args (world_of (args_of 3 (-5) RESTORE_FROM) true None [] ∅)) <= 0 /\
  forall s, eval_loop (world_of (args_of 3 (-5) RESTORE_FROM) true None [] ∅) s
            = (inr tt, s).
Proof.
  split; [cbn; lia|].
  apply (nonpositive_num_steps_skip_loop
           (world_of (args_of 3 (-5) RESTORE_FROM) true None [] ∅)).
  cbn. lia.
Defined.

(** ** Mask files, continued *)

(** Whatever its outcome, the loop leaves alone every path that is not the
    mask path of one of its steps, and every path when the flag is off. *)
Lemma loop_files (w : World) (l : list nat) : forall s p,
  is_save w = false \/ (forall x, In x l -> p <> mask_path x) ->
  files (snd (for_each l (body w) s)) !! p = files s !! p.
Proof.
  induction l as [|x l IH]; intros s p Hp; [reflexivity|].
  cbn [for_each]. unfold mbind, M_bind.
  destruct (body_cases w x s)
    as [[_ Hb] | [(pr & g & _ & _ & _ & Hb) | (pr & g & _ & _ & Hb)]];
    rewrite Hb; [reflexivity | reflexivity |].
  rewrite IH.
  - cbn [after_body files]. destruct Hp as [-> | Hp]; [reflexivity|].
    destruct (is_save w); [|reflexivity].
    apply lookup_insert_ne. intros Heq. apply (Hp x); [now left | now symmetry].
  - destruct Hp as [Hp|Hp]; [now left | right].
    intros y Hy. apply Hp. now right.
Qed.

(** X8. A run writes nothing but its mask files: whatever its outcome, a
    path that is not [SAVE_DIR + 'mask' + str(step) + '.png'] for a step
    below [num_steps] holds after the run what it held before, and with the
    flag off this is so for every path. *)
Theorem run_writes_only_mask_files (w : World) (p : string) :
  is_save w = false \/
  (forall step, (step < Z.to_nat (num_steps (args w)))%nat -> p <> mask_path step) ->
  files (snd (run w)) !! p = files0 w !! p.
Proof.
  intros Hp. unfold run. rewrite main_phases.
  pose proof (load_checkpoint_frame w (snd (init_variables w (initial_state w))))
    as (Hfiles & _).
  cbn zeta in Hfiles. cbn [init_variables modify snd files initial_state] in Hfiles.
  destruct (load_checkpoint w _) as [[e|ls] s1]; cbn [snd] in Hfiles;
    [cbn [snd]; now rewrite Hfiles|].
  destruct (ensure_save_dir w s1) as [[e|[]] s2] eqn:Hens.
  { apply ensure_save_dir_raises in Hens as (_ & -> & _).
    cbn [snd]. now rewrite Hfiles. }
  pose proof (ensure_save_dir_post w s1 s2 Hens) as (_ & _ & _ & _ & _ & Hf2 & _).
  pose proof (loop_files w (range (num_steps (args w))) s2 p) as Hloop.
  fold (eval_loop w) in Hloop. rewrite Hf2, Hfiles in Hloop.
  assert (files (snd (eval_loop w s2)) !! p = files0 w !! p) as Hgoal.
  { apply Hloop. destruct Hp as [Hp|Hp]; [now left | right].
    intros x Hx. apply Hp. unfold range in Hx. apply in_seq in Hx. lia. }
  destruct (eval_loop w _) as [[e|[]] s3]; exact Hgoal.
Qed.

Lemma run_writes_only_mask_files_witness :
  is_save short_reader_world = false /\
  files (snd (run short_reader_world)) !! "./output/mask0.png"
  = files0 short_reader_world !! "./output/mask0.png".
Proof.
  split; [reflexivity|].
  apply (run_writes_only_mask_files short_reader_world "./output/mask0.png").
  left. reflexivity.
Defined.

Lemma append_inj_tail (a b t : string) : a +:+ t = b +:+ t -> a = b.
Proof.
  intros H. apply (f_equal list_ascii_of_string) in H.
  rewrite !chars_app in H. apply app_inv_tail in H.
  apply (f_equal string_of_list_ascii) in H.
  now rewrite !string_of_list_ascii_of_string in H.
Qed.

Lemma append_inj_head (h a b : string) : h +:+ a = h +:+ b -> a = b.
Proof.
  induction h as [|c h IH]; simpl; intros H; [exact H|].
  injection H as H. now apply IH.
Qed.

Lemma mask_path_inj (a b : nat) : mask_path a = mask_path b -> a = b.
Proof.
  intros Heq. apply str_inj.
  change (mask_path a) with ("./output/mask" +:+ (Py.str a +:+ ".png")) in Heq.
  change (mask_path b) with ("./output/mask" +:+ (Py.str b +:+ ".png")) in Heq.
  apply append_inj_head in Heq. now apply append_inj_tail in Heq.
Qed.

(** X9. Distinct steps write distinct files: the mask path determines the
    step, so the paths of the steps of a run are pairwise different and no
    step's file is overwritten by another step. *)
Theorem mask_path_distinct (a b : nat) :
  a <> b ->
  mask_path a <> mask_path b /\
  forall n, List.NoDup (map mask_path (seq 0 n)).
Proof.
  intros Hne. split.
  - intros Heq. apply Hne. now apply mask_path_inj.
  - intros n. apply Finite.Injective_map_NoDup; [|apply seq_NoDup].
    intros x y. apply mask_path_inj.
Qed.

Lemma mask_path_distinct_witness :
  10%nat <> 100%nat /\ mask_path 10 <> mask_path 100.
Proof.
  assert (10%nat <> 100%nat) as H by lia.
  split; [exact H|]. apply (mask_path_distinct 10 100 H).
Defined.

Lemma loop_mask_contents (w : World) (l : list nat) :
  List.NoDup l -> is_save w = true ->
  forall s s', for_each l (body w) s = (inr tt, s') ->
  forall i x pred gt,
    l !! i = Some x ->
    fetch w (params s) (cursor s + i)%nat = Some (pred, gt) ->
    files s' !! mask_path x = Some (mkMask pred (num_classes (args w))).
Proof.
  intros Hnd Hsave. induction Hnd as [|x0 l Hnotin Hnd IH];
    intros s s' Hrun i x pred gt Hx Hf; [discriminate|].
  cbn [for_each] in Hrun. unfold mbind, M_bind in Hrun.
  destruct (body_cases w x0 s)
    as [[_ Hb] | [(p & g & _ & _ & _ & Hb) | (p & g & Hf0 & _ & Hb)]];
    rewrite Hb in Hrun; try discriminate.
  destruct i as [|i].
  - injection Hx as <-. rewrite Nat.add_0_r, Hf0 in Hf. injection Hf as <- <-.
    pose proof (loop_files w l (after_body w x0 s p g) (mask_path x0)) as Hfr.
    rewrite Hrun in Hfr. cbn [snd] in Hfr. rewrite Hfr.
    + cbn [after_body files]. rewrite Hsave. apply lookup_insert_eq.
    + right. intros y Hy Heq. apply mask_path_inj in Heq. subst y. contradiction.
  - apply (IH _ _ Hrun i x pred gt Hx).
    cbn [after_body params cursor].
    replace (S (cursor s) + i)%nat with (cursor s + S i)%nat by lia. exact Hf.
Qed.

(** A loop that ran to its end found a pair at every step. *)
Lemma loop_fetched (w : World) (l : list nat) : forall s s',
  for_each l (body w) s = (inr tt, s') ->
  forall i, (i < length l)%nat ->
  is_Some (fetch w (params s) (cursor s + i)%nat).
Proof.
  induction l as [|x l IH]; intros s s' Hrun i Hi; [cbn in Hi; lia|].
  cbn [for_each] in Hrun. unfold mbind, M_bind in Hrun.
  destruct (body_cases w x s)
    as [[_ Hb] | [(p & g & _ & _ & _ & Hb) | (p & g & Hf & _ & Hb)]];
    rewrite Hb in Hrun; try discriminate.
  destruct i as [|i]; [rewrite Nat.add_0_r, Hf; eauto|].
  cbn [length] in Hi.
  pose proof (IH _ _ Hrun i ltac:(lia)) as Hi'.
  cbn [after_body params cursor] in Hi'.
  replace (cursor s + S i)%nat with (S (cursor s) + i)%nat by lia. exact Hi'.
Qed.

(** C8. With the save flag on, a run that ends normally has written one
    file per step, [SAVE_DIR + 'mask' + str(step) + '.png'] for steps 0 to
    [num_steps] - 1 in that order, and nothing else: the file of step k
    holds the image decoded from the prediction of the k-th pair, and every
    other path holds what it held before.  The output directory exists,
    created by the run if it was absent.  For two steps the files are
    mask0.png and mask1.png, and they are all the output directory holds
    when it held nothing before. *)
Theorem masks_saved_per_step (w : World) (load_step : Z) (s' : State) :
  is_save w = true ->
  run w = (inr load_step, s') ->
  let N := Z.to_nat (num_steps (args w)) in
  (forall step, mask_path step = "./output/mask" +:+ Py.str step +:+ ".png") /\
  saves (trace s') = map mask_path (seq 0 N) /\
  dom (files s') = dom (files0 w) ∪ list_to_set (map mask_path (seq 0 N)) /\
  (forall k, (k < N)%nat ->
     exists pred gt,
       fetch w (params s') k = Some (pred, gt) /\
       files s' !! mask_path k = Some (mkMask pred (num_classes (args w)))) /\
  (forall p, (forall step, (step < N)%nat -> p <> mask_path step) ->
     files s' !! p = files0 w !! p) /\
  SAVE_DIR ∈ dirs s' /\
  (SAVE_DIR ∉ dirs0 w -> EvMakedirs SAVE_DIR ∈ trace s') /\
  (num_steps (args w) = 2 ->
     saves (trace s') = ["./output/mask0.png"; "./output/mask1.png"] /\
     ((forall p, p ∈ dom (files0 w) -> in_save_dir p = false) ->
      forall p, in_save_dir p = true ->
        (p ∈ dom (files s') <->
         p = "./output/mask0.png" \/ p = "./output/mask1.png"))).
Proof.
  intros Hsave Hrun N. unfold run in Hrun. rewrite main_phases in Hrun.
  destruct (load_checkpoint w _) as [[e|ls] s1] eqn:Hload; [discriminate|].
  destruct (ensure_save_dir w s1) as [[e|[]] s2] eqn:Hens; [discriminate|].
  destruct (before_loop w ls s1 s2 Hload Hens)
    as (Hcur & Hfiles & _ & Hdir & _ & (pre & Htr & _ & Hsv & _) & _).
  destruct (eval_loop w s2) as [[e|[]] s3] eqn:Hloop; [discriminate|].
  injection Hrun as -> ->.
  pose proof (loop_frame w (range (num_steps (args w))) s2) as Hfr.
  cbn zeta in Hfr. fold (eval_loop w) in Hfr. rewrite Hloop in Hfr.
  destruct Hfr as (Hd & _ & _ & evs & _ & Hst & _). cbn [snd] in Hd, Hst.
  pose proof (loop_fetched w _ _ _ Hloop) as Hfetch.
  pose proof (loop_mask_contents w (range (num_steps (args w)))
                (seq_NoDup _ _) Hsave s2 s' Hloop) as Hcontent.
  pose proof (loop_files w (range (num_steps (args w))) s2) as Hframe.
  fold (eval_loop w) in Hframe. rewrite Hloop in Hframe. cbn [snd] in Hframe.
  apply loop_completed in Hloop as (_ & Hpar & _ & _ & _ & Hs & Hfl).
  rewrite Hsave in Hs, Hfl. unfold range in Hs, Hfl, Hfetch, Hcontent, Hframe.
  rewrite length_seq in Hfetch. fold N in Hs, Hfl, Hfetch, Hcontent, Hframe.
  assert (saves (trace s2) = []) as Hs2.
  { rewrite Htr, saves_app, Hsv. destruct (bool_decide _); reflexivity. }
  rewrite Hs2 in Hs. rewrite Hfiles in Hfl. cbn [app] in Hs.
  split; [reflexivity|]. split; [exact Hs|]. split; [exact Hfl|].
  split; [|split; [|split; [rewrite Hd; exact Hdir|split]]].
  - intros k Hk. destruct (Hfetch k Hk) as [[pred gt] Hf].
    rewrite Hcur in Hf. cbn [Nat.add] in Hf.
    exists pred, gt. rewrite Hpar. split; [exact Hf|].
    apply (Hcontent k k pred gt); [now apply lookup_seq_lt|].
    now rewrite Hcur.
  - intros p Hp. rewrite Hframe, Hfiles; [reflexivity|].
    right. intros x Hx. apply Hp. apply in_seq in Hx. lia.
  - intros Habsent. rewrite Hst, Htr.
    rewrite (bool_decide_eq_false_2 _ Habsent). set_solver.
  - intros H2. subst N. rewrite H2 in Hs, Hfl. cbn in Hs, Hfl.
    split; [exact Hs|]. intros Hempty p Hp. rewrite Hfl. split.
    + intros Hin. apply elem_of_union in Hin as [Hin|Hin].
      * rewrite (Hempty p Hin) in Hp. discriminate.
      * set_solver.
    + set_solver.
Qed.

Lemma masks_saved_per_step_witness :
  is_save (two_step_world true) = true /\
  fst (run (two_step_world true)) = inr 0 /\
  saves (trace (snd (run (two_step_world true))))
    = ["./output/mask0.png"; "./output/mask1.png"] /\
  files (snd (run (two_step_world true))) !! "./output/mask1.png"
    = Some (mkMask scenario_pred 3).
Proof.
  assert (fst (run (two_step_world true)) = inr 0) as Hfst by reflexivity.
  split; [reflexivity|]. split; [exact Hfst|].
  destruct (masks_saved_per_step (two_step_world true) 0
              (snd (run (two_step_world true))) eq_refl)
    as (_ & _ & _ & Hc & _ & _ & _ & H2).
  - rewrite <- Hfst. apply surjective_pairing.
  - split; [apply H2; reflexivity|].
    destruct (Hc 1%nat) as (pred & gt & Hf & Hfile); [cbn; lia|].
    change (files (snd (run (two_step_world true))) !! mask_path 1
            = Some (mkMask scenario_pred 3)).
    rewrite Hfile. cbn in Hf. injection Hf as <- _. reflexivity.
Defined.

(** X10. With the flag on, after a run that ends normally the file of each
    step k holds the image decoded from the prediction of the k-th pair of
    the reader, with the run's [num_classes]. *)
Theorem mask_file_holds_step_prediction (w : World) (load_step : Z)
    (s' : State) :
  is_save w = true ->
  run w = (inr load_step, s') ->
  forall k pred gt,
    (k < Z.to_nat (num_steps (args w)))%nat ->
    fetch w (params s') k = Some (pred, gt) ->
    files s' !! mask_path k = Some (mkMask pred (num_classes (args w))).
Proof.
  intros Hsave Hrun k pred gt Hk Hf. unfold run in Hrun.
  rewrite main_phases in Hrun.
  destruct (load_checkpoint w _) as [[e|ls] s1] eqn:Hload; [discriminate|].
  destruct (ensure_save_dir w s1) as [[e|[]] s2] eqn:Hens; [discriminate|].
  destruct (before_loop w ls s1 s2 Hload Hens) as (Hcur & _).
  destruct (eval_loop w s2) as [[e|[]] s3] eqn:Hloop; [discriminate|].
  injection Hrun as -> ->.
  pose proof (loop_completed w _ _ _ Hloop) as (_ & Hp & _).
  apply (loop_mask_contents w (range (num_steps (args w)))
           (seq_NoDup _ _) Hsave s2 s' Hloop k k pred gt).
  - unfold range. now apply lookup_seq_lt.
  - rewrite <- Hp, Hcur. exact Hf.
Qed.

Lemma mask_file_holds_step_prediction_witness :
  is_save (two_step_world true) = true /\
  fst (run (two_step_world true)) = inr 0 /\
  files (snd (run (two_step_world true))) !! "./output/mask1.png"
  = Some (mkMask scenario_pred 3).
Proof.
  assert (fst (run (two_step_world true)) = inr 0) as Hfst by reflexivity.
  split; [reflexivity|]. split; [exact Hfst|].
  apply (mask_file_holds_step_prediction (two_step_world true) 0
           (snd (run (two_step_world true))) eq_refl) with (k := 1%nat) (gt := scenario_gt).
  - rewrite <- Hfst. apply surjective_pairing.
  - cbn. lia.
  - reflexivity.
Defined.

(** X11. When [sess.run] fails at step k of a saving run whose checkpoint
    phase, output directory and earlier steps were in order, [main] ends
    with that failure after exactly k [sess.run] calls; the masks of the
    steps before k are on disk with their predictions, and no mask of step
    k or of a later step has been written. *)
Theorem failed_step_keeps_earlier_masks (w : World) (k : nat) :
  checkpoint_loads w = true ->
  save_dir_ready w = true ->
  is_save w = true ->
  (k < Z.to_nat (num_steps (args w)))%nat ->
  (forall j, (j < k)%nat ->
     is_Some (fetch w (params (snd (run w))) j) /\
     save_ok w (mask_path j) = true) ->
  fetch w (params (snd (run w))) k = None ->
  fst (run w) = inl (Py.RunError k) /\
  runs (trace (snd (run w))) = seq 0 k /\
  (forall j pred gt, (j < k)%nat ->
     fetch w (params (snd (run w))) j = Some (pred, gt) ->
     files (snd (run w)) !! mask_path j
     = Some (mkMask pred (num_classes (args w)))) /\
  (forall j, (k <= j)%nat ->
     files (snd (run w)) !! mask_path j = files0 w !! mask_path j).
Proof.
  intros Hloads Hready Hsave Hk.
  destruct (load_checkpoint_loads w (snd (init_variables w (initial_state w))) Hloads)
    as (ls & s1 & Hload).
  pose proof (run_after_load w ls s1 Hload) as Hrun. rewrite Hready in Hrun.
  destruct Hrun as (s2 & Hens & Hrun).
  destruct (before_loop w ls s1 s2 Hload Hens)
    as (Hcur & Hfiles & _ & _ & _ & (pre & Htr & Hruns & _) & _).
  pose proof (loop_frame w (range (num_steps (args w))) s2) as (_ & Hpar & _).
  fold (eval_loop w) in Hpar.
  assert (snd (run w) = snd (eval_loop w s2)) as Hsnd.
  { rewrite Hrun. destruct (eval_loop w s2) as [[e|[]] s3]; reflexivity. }
  rewrite Hsnd, Hpar. intros Hok Hnone.
  destruct (loop_prefix w s2 k) as (s3 & Hpre & Hpost).
  { intros j Hj. destruct (Hok j Hj) as [Hf Hs]. split; [|auto].
    now rewrite Hcur. }
  destruct Hpost as (Hc3 & Hp3 & _ & _ & Hr3 & _).
  rewrite length_seq in Hc3, Hr3. rewrite Hcur in Hc3, Hr3. cbn [Nat.add] in Hc3.
  assert (eval_loop w s2 = (inl (Py.RunError k), s3)) as Hloop.
  { unfold eval_loop, range.
    rewrite (range_split _ k Hk), for_each_app, Hpre.
    cbn [for_each]. unfold mbind, M_bind.
    destruct (body_cases w k s3) as [[_ Hb] | [(p & g & Hf & _) | (p & g & Hf & _)]];
      [| rewrite Hp3, Hc3 in Hf; congruence ..].
    now rewrite Hb, Hc3. }
  assert (fst (run w) = inl (Py.RunError k)) as Hfst.
  { rewrite Hrun. now rewrite Hloop. }
  rewrite Hloop in *. cbn [snd] in *.
  split; [exact Hfst|]. split; [|split].
  - rewrite Hr3, Htr, runs_app, Hruns. destruct (bool_decide _); reflexivity.
  - intros j pred gt Hj Hf.
    apply (loop_mask_contents w (seq 0 k) (seq_NoDup _ _) Hsave s2 s3 Hpre
             j j pred gt).
    + now apply lookup_seq_lt.
    + now rewrite Hcur.
  - intros j Hj.
    pose proof (loop_files w (seq 0 k) s2 (mask_path j)) as Hfr.
    rewrite Hpre in Hfr. cbn [snd] in Hfr. rewrite Hfr, Hfiles; [reflexivity|].
    right. intros x Hx Heq. apply mask_path_inj in Heq. apply in_seq in Hx. lia.
Qed.

Lemma failed_step_keeps_earlier_masks_witness :
  checkpoint_loads
    (world_of (args_of 3 2 RESTORE_FROM) true None [scenario_sample] ∅) = true /\
  save_dir_ready
    (world_of (args_of 3 2 RESTORE_FROM) true None [scenario_sample] ∅) = true /\
  fst (run (world_of (args_of 3 2 RESTORE_FROM) true None [scenario_sample] ∅))
  = inl (Py.RunError 1) /\
  files (snd (run (world_of (args_of 3 2 RESTORE_FROM) true None
                     [scenario_sample] ∅))) !! mask_path 0
  = Some (mkMask scenario_pred 3).
Proof.
  split; [reflexivity|]. split; [reflexivity|].
  destruct (failed_step_keeps_earlier_masks
              (world_of (args_of 3 2 RESTORE_FROM) true None [scenario_sample] ∅)
              1%nat) as (Hfst & _ & Hmask & _).
  - reflexivity.
  - reflexivity.
  - reflexivity.
  - cbn. lia.
  - intros j Hj. assert (j = 0%nat) as -> by lia.
    split; [eexists; reflexivity | reflexivity].
  - reflexivity.
  - split; [exact Hfst|].
    apply (Hmask 0%nat scenario_pred scenario_gt); [lia | reflexivity].
Defined.
